(** * Art Venture nodes: a shallow embedding of [modules/nodes.py]

    The development follows the source file class by class.  Python
    values, exceptions and the float32 arithmetic of the tensors come
    first; then one module per node family:

    - [Mux]     [UtilImageMuxer.image_muxer]
    - [Pipe]    the four parameter-pipe nodes, over a heap of dict objects
    - [Ingest]  [UtilLoadImageFromUrl.load_image_from_url]
    - [Upload]  [AVOutputUploadImage.upload_images]
    - [StringToInt]  [UtilStringToInt.string_to_int]

    Collaborators that live outside the file (requests, PIL, the host's
    [folder_paths], [upload_to_av]) are fields of a host record. *)

From Stdlib Require Import ZArith Ascii String Floats.SpecFloat.
From stdpp Require Import gmap strings list pretty.

#[local] Set Warnings "-register-all".
Local Open Scope string_scope.
Local Open Scope list_scope.
Local Open Scope Z_scope.

(** ** Float32 samples *)

Module F32.
(** IEEE binary32: 24 bits of precision, maximal exponent 128.  These
    are the [np.float32] samples of the image and mask tensors. *)
Definition prec : Z := 24.
Definition emax : Z := 128.

Definition of_Z (z : Z) : spec_float := binary_normalize prec emax z 0 false.
Definition zero : spec_float := S754_zero false.
Definition one : spec_float := of_Z 1.
Definition c255 : spec_float := of_Z 255.

Definition mul : spec_float -> spec_float -> spec_float := SFmul prec emax.
Definition div : spec_float -> spec_float -> spec_float := SFdiv prec emax.
Definition sub : spec_float -> spec_float -> spec_float := SFsub prec emax.
Definition leb : spec_float -> spec_float -> bool := SFleb.
Definition ltb : spec_float -> spec_float -> bool := SFltb.
End F32.

(** ** Python values *)

(** An n-dimensional array (numpy array or torch tensor) with samples
    of type [A]; the rank is the nesting depth. *)
Inductive ndarray (A : Type) : Type :=
  | Sc (x : A)
  | Nd (xs : list (ndarray A)).
Arguments Sc {A} x.
Arguments Nd {A} xs.

(** Elementwise application, as numpy and torch broadcast a scalar
    operation over an array. *)
Fixpoint nd_map {A B} (f : A -> B) (a : ndarray A) : ndarray B :=
  match a with
  | Sc x => Sc (f x)
  | Nd xs => Nd (map (nd_map f) xs)
  end.

(** [torch.zeros(shape, dtype=torch.float32)] *)
Fixpoint zeros (shape : list nat) : ndarray spec_float :=
  match shape with
  | [] => Sc F32.zero
  | n :: shape' => Nd (replicate n (zeros shape'))
  end.

(** [a[None,]]: a new leading axis of length one. *)
Definition add_batch_axis {A} (a : ndarray A) : ndarray A := Nd [a].

(** The values that travel through the nodes of this file. *)
Inductive value : Type :=
  | VNone
  | VStr (s : string)
  | VInt (z : Z)
  | VTensor (t : ndarray spec_float).

(** Exceptions, by class.  [PyException] is the bare [Exception(msg)]
    the file raises itself; the others are raised by the interpreter or
    by a collaborator.  [LibraryError] stands for what PIL or the host's
    [folder_paths] raise once the image is open ([OSError],
    [ValueError], ...): the name of the class and the message. *)
Inductive exn : Type :=
  | IndexError
  | PyException (msg : string)
  | RequestException (msg : string)
  | BinasciiError
  | UnidentifiedImageError
  | UploadFailed (msg : string)
  | LibraryError (cls msg : string).

Inductive result (A : Type) : Type :=
  | Ok (a : A)
  | Raise (e : exn).
Arguments Ok {A} a.
Arguments Raise {A} e.

(** An optional (keyword) argument: [None] when the caller omits it. *)
Definition kwarg {A} (dflt : A) (given : option A) : A := default dflt given.

(** [l[i]] on a Python list: a negative index counts from the end, an
    index outside [-len, len) raises [IndexError]. *)
Definition list_getitem {A} (l : list A) (i : Z) : result A :=
  let n := Z.of_nat (length l) in
  let j := if i <? 0 then i + n else i in
  if (j <? 0) || (n <=? j) then Raise IndexError
  else match l !! Z.to_nat j with
       | Some x => Ok x
       | None => Raise IndexError
       end.

(** ** Image Mux *)

Module Mux.

(** [UtilImageMuxer.image_muxer]; [image_3] and [image_4] default to
    [None].  The one-element result tuple is rendered by its element. *)
Definition image_muxer (image_1 image_2 : value) (input_selector : Z)
    (image_3 image_4 : option value) : result value :=
  let images := [image_1; image_2; kwarg VNone image_3; kwarg VNone image_4] in
  list_getitem images input_selector.

End Mux.

(** ** Parameter pipes *)

Module Pipe.

(** A pipe is a Python [dict] object.  Dicts are mutable and passed by
    reference, so they live in a heap and the nodes exchange their
    addresses. *)
Definition loc : Type := positive.
Abbreviation dict := (gmap string value).
Abbreviation heap := (gmap loc (gmap string value)).

(** [{}]: a new, empty dict object. *)
Definition new_dict (h : heap) : loc * heap :=
  let l := fresh (dom h) in (l, <[l := ∅]> h).

(** [pipe[k] = v] *)
Definition setitem (pipe : loc) (k : string) (v : value) (h : heap) : heap :=
  alter (insert k v) pipe h.

(** [pipe.get(k, dflt)] *)
Definition get (pipe : loc) (k : string) (dflt : value) (h : heap) : value :=
  default dflt (h !! pipe ≫= (.!! k)).

(** The entry of [pipe] under [k], if the key is present. *)
Definition entry (h : heap) (pipe : loc) (k : string) : option value :=
  h !! pipe ≫= (.!! k).

(** A default [pipe: Dict = {}] is evaluated once, when the [def]
    statement runs, and the resulting object is stored with the
    function.  [defaults] holds these objects, one per function. *)
Record defaults : Type := {
  d_checkpoint_models_to_parameter_pipe : loc;
  d_prompt_to_parameter_pipe : loc;
  d_parameter_pipe_to_checkpoint_models : loc;
  d_parameter_pipe_to_prompt : loc
}.

(** Executing the four class bodies, in source order. *)
Definition import_module (h : heap) : defaults * heap :=
  let '(l1, h) := new_dict h in
  let '(l2, h) := new_dict h in
  let '(l3, h) := new_dict h in
  let '(l4, h) := new_dict h in
  ({| d_checkpoint_models_to_parameter_pipe := l1;
      d_prompt_to_parameter_pipe := l2;
      d_parameter_pipe_to_checkpoint_models := l3;
      d_parameter_pipe_to_prompt := l4 |}, h).

(** [x != "None"] *)
Definition ne_sentinel (x : value) : bool :=
  match x with
  | VStr s => negb (String.eqb s "None")
  | _ => true
  end.

(** [x if x != "None" else None] *)
Definition name_or_none (x : value) : value :=
  if ne_sentinel x then x else VNone.

(** [AVCheckpointModelsToParametersPipe.checkpoint_models_to_parameter_pipe].
    The seven optional names default to the string ["None"]. *)
Definition checkpoint_models_to_parameter_pipe (D : defaults)
    (ckpt_name : value) (pipe : option loc)
    (secondary_ckpt_name vae_name upscaler_name secondary_upscaler_name
     lora_1_name lora_2_name lora_3_name : option value)
    (h : heap) : loc * heap :=
  let pipe := kwarg (d_checkpoint_models_to_parameter_pipe D) pipe in
  let secondary_ckpt_name := kwarg (VStr "None") secondary_ckpt_name in
  let vae_name := kwarg (VStr "None") vae_name in
  let upscaler_name := kwarg (VStr "None") upscaler_name in
  let secondary_upscaler_name := kwarg (VStr "None") secondary_upscaler_name in
  let lora_1_name := kwarg (VStr "None") lora_1_name in
  let lora_2_name := kwarg (VStr "None") lora_2_name in
  let lora_3_name := kwarg (VStr "None") lora_3_name in
  let h := setitem pipe "ckpt_name" (name_or_none ckpt_name) h in
  let h := setitem pipe "secondary_ckpt_name" (name_or_none secondary_ckpt_name) h in
  let h := setitem pipe "vae_name" (name_or_none vae_name) h in
  let h := setitem pipe "upscaler_name" (name_or_none upscaler_name) h in
  let h := setitem pipe "secondary_upscaler_name" (name_or_none secondary_upscaler_name) h in
  let h := setitem pipe "lora_1_name" (name_or_none lora_1_name) h in
  let h := setitem pipe "lora_2_name" (name_or_none lora_2_name) h in
  let h := setitem pipe "lora_3_name" (name_or_none lora_3_name) h in
  (pipe, h).

(** [AVPromptsToParametersPipe.prompt_to_parameter_pipe];
    [image] and [mask] default to [None]. *)
Definition prompt_to_parameter_pipe (D : defaults)
    (positive negative : value) (pipe : option loc)
    (image mask : option value) (h : heap) : loc * heap :=
  let pipe := kwarg (d_prompt_to_parameter_pipe D) pipe in
  let image := kwarg VNone image in
  let mask := kwarg VNone mask in
  let h := setitem pipe "positive" positive h in
  let h := setitem pipe "negative" negative h in
  let h := setitem pipe "image" image h in
  let h := setitem pipe "mask" mask h in
  (pipe, h).

(** The result tuple of [parameter_pipe_to_checkpoint_models], with the
    field names of [RETURN_NAMES]. *)
Record checkpoint_models : Type := {
  cm_pipe : loc;
  cm_ckpt_name : value;
  cm_secondary_ckpt_name : value;
  cm_vae_name : value;
  cm_upscaler_name : value;
  cm_secondary_upscaler_name : value;
  cm_lora_1_name : value;
  cm_lora_2_name : value;
  cm_lora_3_name : value
}.

(** [AVParametersPipeToCheckpointModels.parameter_pipe_to_checkpoint_models] *)
Definition parameter_pipe_to_checkpoint_models (D : defaults)
    (pipe : option loc) (h : heap) : checkpoint_models * heap :=
  let pipe := kwarg (d_parameter_pipe_to_checkpoint_models D) pipe in
  let ckpt_name := get pipe "ckpt_name" VNone h in
  let secondary_ckpt_name := get pipe "secondary_ckpt_name" VNone h in
  let vae_name := get pipe "vae_name" VNone h in
  let upscaler_name := get pipe "upscaler_name" VNone h in
  let secondary_upscaler_name := get pipe "secondary_upscaler_name" VNone h in
  let lora_1_name := get pipe "lora_1_name" VNone h in
  let lora_2_name := get pipe "lora_2_name" VNone h in
  let lora_3_name := get pipe "lora_3_name" VNone h in
  ({| cm_pipe := pipe;
      cm_ckpt_name := ckpt_name;
      cm_secondary_ckpt_name := secondary_ckpt_name;
      cm_vae_name := vae_name;
      cm_upscaler_name := upscaler_name;
      cm_secondary_upscaler_name := secondary_upscaler_name;
      cm_lora_1_name := lora_1_name;
      cm_lora_2_name := lora_2_name;
      cm_lora_3_name := lora_3_name |}, h).

(** The result tuple of [parameter_pipe_to_prompt]. *)
Record prompts : Type := {
  pr_pipe : loc;
  pr_positive : value;
  pr_negative : value;
  pr_image : value;
  pr_mask : value
}.

(** [AVParametersPipeToPrompts.parameter_pipe_to_prompt] *)
Definition parameter_pipe_to_prompt (D : defaults)
    (pipe : option loc) (h : heap) : prompts * heap :=
  let pipe := kwarg (d_parameter_pipe_to_prompt D) pipe in
  let positive := get pipe "positive" VNone h in
  let negative := get pipe "negative" VNone h in
  let image := get pipe "image" VNone h in
  let mask := get pipe "mask" VNone h in
  ({| pr_pipe := pipe;
      pr_positive := positive;
      pr_negative := negative;
      pr_image := image;
      pr_mask := mask |}, h).

(** The keys each to-pipe node assigns. *)
Definition checkpoint_keys : list string :=
  ["ckpt_name"; "secondary_ckpt_name"; "vae_name"; "upscaler_name";
   "secondary_upscaler_name"; "lora_1_name"; "lora_2_name"; "lora_3_name"].

Definition prompt_keys : list string :=
  ["positive"; "negative"; "image"; "mask"].

End Pipe.

(** ** Effects of the two I/O nodes *)

Abbreviation bytes := (list Byte.byte).

(** A decoded PIL image: its size and its bands in mode order, each an
    8-bit plane stored by rows. *)
Record pil_image : Type := {
  im_width : nat;
  im_height : nat;
  im_bands : list (string * list (list N))
}.

(** One entry of the multipart batch: [("files", (filename, buffer, mime))]. *)
Record file_entry : Type := {
  fe_field : string;
  fe_filename : string;
  fe_buffer : bytes;
  fe_mime : string
}.

(** What a node does to the outside world, in program order. *)
Inductive event : Type :=
  | HttpGet (url : string) (timeout : Z)
  | SavePng (path : string) (im : pil_image) (compress_level : Z)
  | UploadToAv (files : list file_entry) (additional_data : gmap string string).

(** A computation that emits events and may raise. *)
Definition eff (A : Type) : Type := (list event * result A)%type.

#[global] Instance eff_ret : MRet eff := λ A a, ([], Ok a).
#[global] Instance eff_bind : MBind eff := λ A B k m,
  match m with
  | (t, Ok a) => let '(t', r) := k a in (t ++ t', r)
  | (t, Raise e) => (t, Raise e)
  end.

Definition emit (e : event) : eff () := ([e], Ok ()).
Definition raise {A} (e : exn) : eff A := ([], Raise e).
Definition lift {A} (r : result A) : eff A := ([], r).

Definition trace {A} (m : eff A) : list event := m.1.
Definition outcome {A} (m : eff A) : result A := m.2.

Definition is_http_get (e : event) : bool :=
  match e with HttpGet _ _ => true | _ => false end.

(** [s.split(sep)] for a one-character separator. *)
Fixpoint str_split (sep : Ascii.ascii) (s : string) : list string :=
  match s with
  | EmptyString => [EmptyString]
  | String c s' =>
      if Ascii.eqb c sep then EmptyString :: str_split sep s'
      else match str_split sep s' with
           | [] => [String c EmptyString]
           | w :: ws => String c w :: ws
           end
  end.

(** [f"{n:05}"] for a non-negative counter. *)
Definition format_05 (n : N) : string :=
  let digits := pretty n in
  String.concat EmptyString (replicate (5 - String.length digits)%nat "0") +:+ digits.

(** ** Image Ingest *)

Module Ingest.

(** A [requests.Response], as far as the node reads it. *)
Record response : Type := {
  status_code : Z;
  text : string;
  content : bytes
}.

(** [(full_output_folder, filename, counter, subfolder, filename_prefix)] *)
Record save_image_path : Type := {
  sp_outdir : string;
  sp_filename : string;
  sp_counter : N;
  sp_subfolder : string;
  sp_prefix : string
}.

(** A call into PIL or [folder_paths] that raises: the class of the
    exception and its message. *)
Definition failure : Type := (string * string)%type.

(** The collaborators: [requests], [base64], PIL, [os.path] and the
    host's [folder_paths].  A failing collaborator raises an exception
    of its own class, given here by the shape of its result.  PIL
    decodes lazily and its PNG writer refuses some modes, so every call
    on the opened image can fail, [image.save] included; so can the
    host's path lookup, which reads and creates directories. *)
Record host : Type := {
  requests_get : string -> Z -> response + string;
  b64decode : string -> option bytes;
  Image_open : bytes -> option pil_image;
  exif_transpose : pil_image -> pil_image + failure;
  convert_RGB : pil_image -> pil_image + failure;
  get_temp_directory : string;
  get_save_image_path : string -> string -> nat -> nat -> save_image_path + failure;
  path_join : string -> string -> string;
  Image_save : string -> pil_image -> Z -> () + failure
}.

(** The result of such a call, or its exception. *)
Definition call {A} (r : A + failure) : eff A :=
  match r with
  | inl a => mret a
  | inr (cls, msg) => raise (LibraryError cls msg)
  end.

Record self : Type := {
  output_dir : string;
  filename_prefix : string
}.

(** [UtilLoadImageFromUrl.__init__] *)
Definition init (H : host) : self :=
  {| output_dir := get_temp_directory H;
     filename_prefix := "TempImageFromUrl" |}.

Record preview : Type := {
  pv_filename : string;
  pv_subfolder : string;
  pv_type : string
}.

(** [{"ui": {"images": [...]}, "result": (image, mask)}] *)
Record output : Type := {
  ui_images : list preview;
  result_image : ndarray spec_float;
  result_mask : ndarray spec_float
}.

(** [i.getbands()] *)
Definition getbands (i : pil_image) : list string := (im_bands i).*1.

(** ["A" in i.getbands()] *)
Definition has_band (name : string) (i : pil_image) : bool :=
  bool_decide (name ∈ getbands i).

(** [i.getchannel(name)]: a single-band image of mode [L]. *)
Definition getchannel (name : string) (i : pil_image) : option pil_image :=
  plane ← (list_find (λ b, b.1 = name) (im_bands i));
  Some {| im_width := im_width i; im_height := im_height i;
          im_bands := [("L", plane.2.2)] |}.

(** The sample of a plane at row [y], column [x]. *)
Definition sample (plane : list (list N)) (y x : nat) : N :=
  default 0%N (plane !! y ≫= (.!! x)).

(** [np.array(image)]: height x width for a single band,
    height x width x bands otherwise. *)
Definition np_array (image : pil_image) : ndarray N :=
  let rows (cell : nat -> nat -> ndarray N) :=
    Nd (map (λ y, Nd (map (λ x, cell y x) (seq 0 (im_width image))))
            (seq 0 (im_height image))) in
  match im_bands image with
  | [(_, plane)] => rows (λ y x, Sc (sample plane y x))
  | planes => rows (λ y x, Nd (map (λ b, Sc (sample b.2 y x)) planes))
  end.

(** [a.astype(np.float32) / 255.0] on one sample. *)
Definition normalize (a : N) : spec_float :=
  F32.div (F32.of_Z (Z.of_N a)) F32.c255.

(** Lines 44-51: the bytes come from the data URI itself or from one
    GET, and are handed to [Image.open]. *)
Definition open_url (H : host) (url : string) : eff pil_image :=
  if String.prefix "data:image/" url then
    payload ← lift (list_getitem (str_split ","%char url) 1);
    raw ← lift (from_option Ok (Raise BinasciiError) (b64decode H payload));
    lift (from_option Ok (Raise UnidentifiedImageError) (Image_open H raw))
  else
    emit (HttpGet url 5);;
    match requests_get H url 5 with
    | inr msg => raise (RequestException msg)
    | inl response =>
        if negb (status_code response =? 200) then
          raise (PyException (text response))
        else
          lift (from_option Ok (Raise UnidentifiedImageError)
                  (Image_open H (content response)))
    end.

(** Lines 79-83: the mask of the transposed source image [i].  Under
    the band test [getchannel] always finds the plane; PIL would raise
    where the inner match has [None]. *)
Definition mask_of (i : pil_image) : ndarray spec_float :=
  if has_band "A" i then
    match getchannel "A" i with
    | Some alpha =>
        let mask := nd_map normalize (np_array alpha) in
        nd_map (F32.sub F32.one) mask
    | None => zeros [64%nat; 64%nat]
    end
  else zeros [64%nat; 64%nat].

(** Lines 53-85: what the node does with the opened image.  The event
    [SavePng] is the call of [image.save], which opens the file before
    it encodes; the call may still raise. *)
Definition process_image (H : host) (s : self)
    (keep_alpha_channel : bool) (i : pil_image) : eff output :=
  i ← call (exif_transpose H i);
  image ← (if negb keep_alpha_channel then call (convert_RGB H i) else mret i);
  p ← call (get_save_image_path H (filename_prefix s) (output_dir s)
              (im_width image) (im_height image));
  let file := sp_filename p +:+ "_" +:+ format_05 (sp_counter p) +:+ ".png" in
  emit (SavePng (path_join H (sp_outdir p) file) image 4);;
  call (Image_save H (path_join H (sp_outdir p) file) image 4);;
  let preview := {| pv_filename := file;
                    pv_subfolder := sp_subfolder p;
                    pv_type := "temp" |} in
  let image := nd_map normalize (np_array image) in
  let image := add_batch_axis image in
  let mask := mask_of i in
  mret {| ui_images := [preview]; result_image := image; result_mask := mask |}.

(** [UtilLoadImageFromUrl.load_image_from_url] *)
Definition load_image_from_url (H : host) (s : self)
    (url : string) (keep_alpha_channel : option bool) : eff output :=
  let keep_alpha_channel := kwarg false keep_alpha_channel in
  i ← open_url H url;
  process_image H s keep_alpha_channel i.

End Ingest.

(** ** Upload Sink *)

Module Upload.

(** The JSON-serialisable values of the hidden [prompt] and
    [extra_pnginfo] inputs. *)
Inductive json : Type :=
  | JNull
  | JBool (b : bool)
  | JNum (z : Z)
  | JStr (s : string)
  | JArr (xs : list json)
  | JObj (fields : list (string * json)).

(** The collaborators: [json.dumps], PIL's PNG encoder and
    [upload_to_av] of [modules/utils.py], which posts one multipart
    request and raises when the request fails ([Some msg]). *)
Record host : Type := {
  json_dumps : json -> string;
  save_png : ndarray N -> list (string * string) -> Z -> bytes;
  upload_to_av : list file_entry -> gmap string string -> option string
}.

(** [np.clip(x, 0, 255)] on one sample; a NaN passes through. *)
Definition clip_0_255 (x : spec_float) : spec_float :=
  if F32.ltb x F32.zero then F32.zero
  else if F32.ltb F32.c255 x then F32.c255
  else x.

(** [.astype(np.uint8)] on one clipped sample: the fraction is cut
    off.  The cast of a NaN is left to the platform by numpy; it is
    taken as 0 here. *)
Definition to_uint8 (x : spec_float) : N :=
  match x with
  | S754_finite false m e =>
      Z.to_N (if 0 <=? e then Z.pos m * 2 ^ e else Z.pos m / 2 ^ (- e))
  | _ => 0%N
  end.

(** [np.clip(255.0 * image, 0, 255).astype(np.uint8)] *)
Definition quantize (image : ndarray spec_float) : ndarray N :=
  nd_map (λ x, to_uint8 (clip_0_255 (F32.mul F32.c255 x))) image.

(** The text chunks added to one image's [PngInfo], in order. *)
Definition png_text (H : host) (prompt : option json)
    (extra_pnginfo : option (list (string * json))) : list (string * string) :=
  (match prompt with
   | Some p => [("prompt", json_dumps H p)]
   | None => []
   end) ++
  (match extra_pnginfo with
   | Some extra => map (λ x, (x.1, json_dumps H x.2)) extra
   | None => []
   end).

(** The body of the [for idx, image in enumerate(images)] loop. *)
Definition file_of (H : host) (prompt : option json)
    (extra_pnginfo : option (list (string * json)))
    (idx : nat) (image : ndarray spec_float) : file_entry :=
  let img := quantize image in
  let metadata := png_text H prompt extra_pnginfo in
  let buffer := save_png H img metadata 4 in
  {| fe_field := "files";
     fe_filename := "image-" +:+ pretty idx +:+ ".png";
     fe_buffer := buffer;
     fe_mime := "image/png" |}.

(** [AVOutputUploadImage.upload_images]; [folder_id], [prompt] and
    [extra_pnginfo] default to [None]. *)
Definition upload_images (H : host) (images : list (ndarray spec_float))
    (folder_id : option string) (prompt : option json)
    (extra_pnginfo : option (list (string * json))) : eff string :=
  let files := imap (file_of H prompt extra_pnginfo) images in
  let additional_data : gmap string string := {["success" := "true"]} in
  let additional_data :=
    match folder_id with
    | Some f => <["folderId" := f]> additional_data
    | None => additional_data
    end in
  emit (UploadToAv files additional_data);;
  match upload_to_av H files additional_data with
  | Some msg => raise (UploadFailed msg)
  | None => mret "Uploaded to ArtVenture!"
  end.

(** The batch handed to [upload_to_av], read off the trace. *)
Definition uploads {A} (m : eff A) : list (list file_entry * gmap string string) :=
  omap (λ e, match e with UploadToAv f d => Some (f, d) | _ => None end) (trace m).

End Upload.

(** ** String to Int *)

Module StringToInt.

(** The outcome of [int(string)]: the integer, or [ValueError]. *)
Inductive parsed : Type :=
  | Int (z : Z)
  | ValueError.

(** [Py_ISSPACE]: space and the five characters 9 to 13. *)
Definition is_space (c : Ascii.ascii) : bool :=
  let n := N_of_ascii c in
  ((n =? 32) || ((9 <=? n) && (n <=? 13)))%N.

(** The value of a decimal digit character. *)
Definition digit_of (c : Ascii.ascii) : option N :=
  let n := N_of_ascii c in
  if ((48 <=? n) && (n <=? 57))%N then Some (n - 48)%N else None.

Fixpoint skip_spaces (s : string) : string :=
  match s with
  | String c s' => if is_space c then skip_spaces s' else s
  | EmptyString => s
  end.

(** What the digit loop has just read. *)
Inductive last_read : Type := Nothing | Digit | Underscore.

(** The digit loop of [int] in base 10: digits, with single underscores
    allowed between two digits only.  It yields the value, the number of
    digits and the unread rest, or nothing when there is no digit or an
    underscore is misplaced. *)
Fixpoint scan_digits (prev : last_read) (acc : N) (count : nat) (s : string)
    : option (N * nat * string) :=
  match s with
  | String c s' =>
      match digit_of c with
      | Some d => scan_digits Digit (10 * acc + d)%N (S count) s'
      | None =>
          if Ascii.eqb c "_" then
            match prev with
            | Digit => scan_digits Underscore acc count s'
            | _ => None
            end
          else
            match prev with
            | Digit => Some (acc, count, s)
            | _ => None
            end
      end
  | EmptyString =>
      match prev with
      | Digit => Some (acc, count, s)
      | _ => None
      end
  end.

Definition is_ascii (s : string) : bool :=
  forallb (λ c, (N_of_ascii c <? 128)%N) (list_ascii_of_string s).

(** [int(text)] for ASCII text: white space is skipped on both sides,
    one sign may precede the digits, and a literal with more than
    [max_str_digits] digits is refused when that limit
    ([sys.get_int_max_str_digits()]) is not 0.  Text with a character
    above 127 is outside this model ([None]): [int] also accepts the
    decimal digits and spaces of other scripts. *)
Definition int_of_str (max_str_digits : nat) (text : string) : option parsed :=
  if negb (is_ascii text) then None
  else
    let s := skip_spaces text in
    let '(negative, s) :=
      match s with
      | String "+" s' => (false, s')
      | String "-" s' => (true, s')
      | _ => (false, s)
      end in
    Some match scan_digits Nothing 0 0 s with
         | Some (n, count, rest) =>
             if (0 <? max_str_digits)%nat && (max_str_digits <? count)%nat
             then ValueError
             else match skip_spaces rest with
                  | EmptyString => Int (if negative then - Z.of_N n else Z.of_N n)
                  | _ => ValueError
                  end
         | None => ValueError
         end.

(** [UtilStringToInt.string_to_int]; the one-element result tuple is
    rendered by its element. *)
Definition string_to_int (max_str_digits : nat) (string : string) : option parsed :=
  int_of_str max_str_digits string.

End StringToInt.

(** ** Vocabulary of the statements *)



(** A height x width array filled with one sample. *)
Definition full2 (height width : nat) (c : spec_float) : ndarray spec_float :=
  Nd (replicate height (Nd (replicate width (Sc c)))).

(** The samples of an array, in row-major order. *)
Fixpoint nd_samples {A} (a : ndarray A) : list A :=
  match a with
  | Sc x => [x]
  | Nd xs => concat (map nd_samples xs)
  end.

(** The array is rectangular with the given extents. *)
Fixpoint has_shape {A} (shape : list nat) (a : ndarray A) : Prop :=
  match shape, a with
  | [], Sc _ => True
  | n :: shape', Nd xs => length xs = n ∧ Forall (has_shape shape') xs
  | _, _ => False
  end.

(** All samples of all bands are 8-bit. *)
Definition eight_bit (i : pil_image) : Prop :=
  ∀ name plane y x,
    (name, plane) ∈ im_bands i → (Ingest.sample plane y x < 256)%N.

(** A float32 sample between 0 and 1, the ends included. *)
Definition unit_range (v : spec_float) : Prop :=
  F32.leb F32.zero v = true ∧ F32.leb v F32.one = true.

(** The steps between opening the source image [src] and building the
    tensors all succeed: the EXIF transposition yields [i]; the image to
    save is [image], which is [i] when alpha is kept and its RGB
    conversion otherwise; the host names a path; the PNG is written. *)
Definition preview_saved (H : Ingest.host) (s : Ingest.self)
    (keep_alpha_channel : option bool) (src i image : pil_image) : Prop :=
  Ingest.exif_transpose H src = inl i ∧
  (if kwarg false keep_alpha_channel then inl i else Ingest.convert_RGB H i)
    = inl image ∧
  ∃ p, Ingest.get_save_image_path H (Ingest.filename_prefix s) (Ingest.output_dir s)
         (im_width image) (im_height image) = inl p ∧
       Ingest.Image_save H
         (Ingest.path_join H (Ingest.sp_outdir p)
            (Ingest.sp_filename p +:+ "_" +:+ format_05 (Ingest.sp_counter p) +:+ ".png"))
         image 4 = inl ().

(** [plane] is the band of [i] called [name]: the first one, should the
    name occur twice. *)
Definition band_of (i : pil_image) (name : string) (plane : list (list N)) : Prop :=
  ∃ k, im_bands i !! k = Some (name, plane) ∧
       ∀ j b, (j < k)%nat → im_bands i !! j = Some b → b.1 ≠ name.

(** The characters of a string. *)
Definition chars (s : string) : list Ascii.ascii := list_ascii_of_string s.

(** A string of white space only (the empty string included). *)
Definition blank (s : string) : Prop :=
  Forall (λ c, StringToInt.is_space c = true) (chars s).

(** A character [int] can accept in an ASCII decimal literal. *)
Definition literal_char (c : Ascii.ascii) : Prop :=
  StringToInt.is_space c = true ∨ is_Some (StringToInt.digit_of c) ∨
  c = "+"%char ∨ c = "-"%char ∨ c = "_"%char.

(** The entries a to-pipe call assigns, latest assignment first. *)
Definition checkpoint_entries (ckpt_name : value)
    (secondary_ckpt_name vae_name upscaler_name secondary_upscaler_name
     lora_1_name lora_2_name lora_3_name : option value) : list (string * value) :=
  let given := kwarg (VStr "None") in
  [("lora_3_name", Pipe.name_or_none (given lora_3_name));
   ("lora_2_name", Pipe.name_or_none (given lora_2_name));
   ("lora_1_name", Pipe.name_or_none (given lora_1_name));
   ("secondary_upscaler_name", Pipe.name_or_none (given secondary_upscaler_name));
   ("upscaler_name", Pipe.name_or_none (given upscaler_name));
   ("vae_name", Pipe.name_or_none (given vae_name));
   ("secondary_ckpt_name", Pipe.name_or_none (given secondary_ckpt_name));
   ("ckpt_name", Pipe.name_or_none ckpt_name)].

Definition prompt_entries (positive negative : value)
    (image mask : option value) : list (string * value) :=
  [("mask", kwarg VNone mask); ("image", kwarg VNone image);
   ("negative", negative); ("positive", positive)].

(** The arguments of one call of each to-pipe node, bundled. *)
Record checkpoint_args : Type := {
  a_ckpt_name : value;
  a_secondary_ckpt_name : option value;
  a_vae_name : option value;
  a_upscaler_name : option value;
  a_secondary_upscaler_name : option value;
  a_lora_1_name : option value;
  a_lora_2_name : option value;
  a_lora_3_name : option value
}.

Record prompt_args : Type := {
  a_positive : value;
  a_negative : value;
  a_image : option value;
  a_mask : option value
}.

Definition call_checkpoint_models_to_parameter_pipe (D : Pipe.defaults)
    (a : checkpoint_args) (pipe : option Pipe.loc)
    (h : gmap Pipe.loc (gmap string value)) :=
  Pipe.checkpoint_models_to_parameter_pipe D (a_ckpt_name a) pipe
    (a_secondary_ckpt_name a) (a_vae_name a) (a_upscaler_name a)
    (a_secondary_upscaler_name a) (a_lora_1_name a) (a_lora_2_name a)
    (a_lora_3_name a) h.

Definition call_prompt_to_parameter_pipe (D : Pipe.defaults)
    (a : prompt_args) (pipe : option Pipe.loc)
    (h : gmap Pipe.loc (gmap string value)) :=
  Pipe.prompt_to_parameter_pipe D (a_positive a) (a_negative a) pipe
    (a_image a) (a_mask a) h.

(** ** Concrete sessions, for evaluating the nodes *)

Module Session.

(** The state right after the module is imported into an empty heap:
    the four default dicts exist and nothing else does. *)
Definition D : Pipe.defaults := (Pipe.import_module ∅).1.
Definition h0 : gmap Pipe.loc (gmap string value) := (Pipe.import_module ∅).2.

(** A heap with one more pipe, already carrying entries of both
    directions. *)
Definition user_pipe : Pipe.loc := 9%positive.
Definition h1 : gmap Pipe.loc (gmap string value) :=
  <[user_pipe := {["positive" := VStr "old"; "vae_name" := VStr "old.vae";
                   "image" := VInt 7; "seed" := VInt 42]}]> h0.

(** Two calls of each to-pipe node with different arguments. *)
Definition first_ckpt : checkpoint_args :=
  {| a_ckpt_name := VStr "a.ckpt"; a_secondary_ckpt_name := None;
     a_vae_name := Some (VStr "a.vae"); a_upscaler_name := None;
     a_secondary_upscaler_name := None; a_lora_1_name := None;
     a_lora_2_name := None; a_lora_3_name := None |}.
Definition second_ckpt : checkpoint_args :=
  {| a_ckpt_name := VStr "b.ckpt"; a_secondary_ckpt_name := None;
     a_vae_name := None; a_upscaler_name := None;
     a_secondary_upscaler_name := None; a_lora_1_name := None;
     a_lora_2_name := None; a_lora_3_name := None |}.
Definition first_prompt : prompt_args :=
  {| a_positive := VStr "first"; a_negative := VStr "blurry";
     a_image := Some (VInt 1); a_mask := None |}.
Definition second_prompt : prompt_args :=
  {| a_positive := VStr "second"; a_negative := VStr "noisy";
     a_image := None; a_mask := None |}.

(** A 1 x 1 RGBA image, fully opaque, and the same image flattened. *)
Definition opaque_pixel : pil_image :=
  {| im_width := 1; im_height := 1;
     im_bands := [("R", [[10%N]]); ("G", [[20%N]]); ("B", [[30%N]]);
                  ("A", [[255%N]])] |}.
Definition rgb_pixel : pil_image :=
  {| im_width := 1; im_height := 1;
     im_bands := [("R", [[10%N]]); ("G", [[20%N]]); ("B", [[30%N]])] |}.

(** A host whose decoder yields [opaque_pixel] for any bytes and
    whose network answers every GET with [status] and a body. *)
Definition ingest_host (status : Z) : Ingest.host :=
  {| Ingest.requests_get := λ _ _,
       inl {| Ingest.status_code := status;
              Ingest.text := "answer body";
              Ingest.content := [] |};
     Ingest.b64decode := λ _, Some [];
     Ingest.Image_open := λ _, Some opaque_pixel;
     Ingest.exif_transpose := λ i, inl i;
     Ingest.convert_RGB := λ _, inl rgb_pixel;
     Ingest.get_temp_directory := "/tmp";
     Ingest.get_save_image_path := λ prefix dir _ _,
       inl {| Ingest.sp_outdir := dir; Ingest.sp_filename := prefix;
              Ingest.sp_counter := 1%N; Ingest.sp_subfolder := EmptyString;
              Ingest.sp_prefix := prefix |};
     Ingest.path_join := λ a b, a +:+ "/" +:+ b;
     Ingest.Image_save := λ _ _ _, inl () |}.

(** A 1 x 2 RGBA image, opaque on the left and transparent on the
    right, and a 1 x 1 CMYK image. *)
Definition two_pixels : pil_image :=
  {| im_width := 2; im_height := 1;
     im_bands := [("R", [[10%N; 11%N]]); ("G", [[20%N; 21%N]]);
                  ("B", [[30%N; 31%N]]); ("A", [[255%N; 0%N]])] |}.
Definition cmyk_pixel : pil_image :=
  {| im_width := 1; im_height := 1;
     im_bands := [("C", [[10%N]]); ("M", [[20%N]]); ("Y", [[30%N]]);
                  ("K", [[40%N]])] |}.

(** A host whose decoder yields [img] for any bytes and whose PNG
    writer, like PIL's, refuses an image of mode CMYK. *)
Definition host_of (img : pil_image) : Ingest.host :=
  {| Ingest.requests_get := λ _ _,
       inl {| Ingest.status_code := 200;
              Ingest.text := "answer body";
              Ingest.content := [] |};
     Ingest.b64decode := λ _, Some [];
     Ingest.Image_open := λ _, Some img;
     Ingest.exif_transpose := λ i, inl i;
     Ingest.convert_RGB := λ _, inl rgb_pixel;
     Ingest.get_temp_directory := "/tmp";
     Ingest.get_save_image_path := λ prefix dir _ _,
       inl {| Ingest.sp_outdir := dir; Ingest.sp_filename := prefix;
              Ingest.sp_counter := 1%N; Ingest.sp_subfolder := EmptyString;
              Ingest.sp_prefix := prefix |};
     Ingest.path_join := λ a b, a +:+ "/" +:+ b;
     Ingest.Image_save := λ _ im _,
       if bool_decide (Ingest.getbands im = ["C"; "M"; "Y"; "K"])
       then inr ("OSError", "cannot write mode CMYK as PNG")
       else inl () |}.

Definition data_uri : string := "data:image/png;base64,iVBORw0KGgo=".
Definition http_url : string := "https://example.org/cat.png".

(** An upload host that always succeeds, and a 1 x 1 image tensor. *)
Definition upload_host : Upload.host :=
  {| Upload.json_dumps := λ _, "null";
     Upload.save_png := λ _ _ _, [];
     Upload.upload_to_av := λ _ _, None |}.
Definition one_pixel : ndarray spec_float :=
  Nd [Nd [Nd [Sc F32.one; Sc F32.zero; Sc F32.one]]].

End Session.

(** * Properties *)

Example mux_sel0 : Mux.image_muxer (VStr "a") (VStr "b") 0 None None = Ok (VStr "a").
Proof. reflexivity. Qed.
Example mux_sel3_unset : Mux.image_muxer (VStr "a") (VStr "b") 3 None None = Ok VNone.
Proof. reflexivity. Qed.
Example mux_sel_m1 : Mux.image_muxer (VStr "a") (VStr "b") (-1) None (Some (VStr "d")) = Ok (VStr "d").
Proof. reflexivity. Qed.
Example mux_sel4 : Mux.image_muxer (VStr "a") (VStr "b") 4 None None = Raise IndexError.
Proof. reflexivity. Qed.
Example mux_sel_m5 : Mux.image_muxer (VStr "a") (VStr "b") (-5) None None = Raise IndexError.
Proof. reflexivity. Qed.

(** ** Image Mux *)

Lemma list_getitem_out_of_range {A} (l : list A) (i : Z) :
  i < - Z.of_nat (length l) ∨ Z.of_nat (length l) <= i →
  list_getitem l i = Raise IndexError.
Proof.
  intros Hi. unfold list_getitem.
  destruct (Z.ltb_spec i 0); simpl.
  - destruct (Z.ltb_spec (i + Z.of_nat (length l)) 0); [done | lia].
  - destruct (Z.ltb_spec i 0); [lia |].
    destruct (Z.leb_spec (Z.of_nat (length l)) i); [done | lia].
Qed.

(** C1, as stated, fails: selector -1 is not the index of any of the
    four slots, the slot it reaches ([image_4]) is not populated, and
    yet the node returns null instead of raising. *)
Lemma image_muxer_negative_selector :
  let r := Mux.image_muxer (VStr "a") (VStr "b") (-1) None None in
  ¬ (0 <= -1 < 4) ∧ r = Ok VNone ∧ r ≠ Raise IndexError.
Proof. repeat split; [lia | discriminate]. Qed.

(** C1, amended: for every integer selector the node returns the slot
    at that index for 0..3, the slot at index selector + 4 for -4..-1
    (an unset optional slot is null), and raises [IndexError] exactly
    when the selector is below -4 or above 3. *)
Theorem image_muxer_spec (image_1 image_2 : value) (sel : Z)
    (image_3 image_4 : option value) :
  Mux.image_muxer image_1 image_2 sel image_3 image_4 =
    if (-4 <=? sel) && (sel <? 4) then
      Ok (match sel mod 4 with
          | 0 => image_1
          | 1 => image_2
          | 2 => default VNone image_3
          | _ => default VNone image_4
          end)
    else Raise IndexError.
Proof.
  unfold Mux.image_muxer.
  destruct (Z.leb_spec (-4) sel) as [Hlo|Hlo]; simpl.
  - destruct (Z.ltb_spec sel 4) as [Hhi|Hhi].
    + assert (sel = -4 ∨ sel = -3 ∨ sel = -2 ∨ sel = -1 ∨
              sel = 0 ∨ sel = 1 ∨ sel = 2 ∨ sel = 3) as Hcases by lia.
      destruct_or!; subst sel; reflexivity.
    + apply list_getitem_out_of_range. simpl. lia.
  - apply list_getitem_out_of_range. simpl. lia.
Qed.

(** ** Parameter pipes: assignments and lookups on the heap *)

Section pipe_heap.
Import Pipe.
Implicit Types (h : heap) (p q : loc) (k : string) (v : value).

Lemma setitem_allocated h p q k v :
  is_Some (setitem p k v h !! q) ↔ is_Some (h !! q).
Proof.
  unfold setitem. destruct (decide (p = q)) as [->|Hne].
  - rewrite lookup_alter_eq. by rewrite fmap_is_Some.
  - by rewrite lookup_alter_ne.
Qed.

Lemma entry_setitem_eq h p k v :
  is_Some (h !! p) → entry (setitem p k v h) p k = Some v.
Proof.
  intros [d Hd]. unfold entry, setitem.
  rewrite lookup_alter_eq, Hd. simpl. apply lookup_insert_eq.
Qed.

Lemma entry_setitem_ne_key h p q k k' v :
  k ≠ k' → entry (setitem p k v h) q k' = entry h q k'.
Proof.
  intros Hk. unfold entry, setitem. destruct (decide (p = q)) as [->|Hne].
  - rewrite lookup_alter_eq. destruct (h !! q) as [d|]; simpl; [|done].
    by apply lookup_insert_ne.
  - by rewrite lookup_alter_ne.
Qed.

Lemma entry_setitem_ne_loc h p q k k' v :
  p ≠ q → entry (setitem p k v h) q k' = entry h q k'.
Proof. intros Hne. unfold entry, setitem. by rewrite lookup_alter_ne. Qed.

Lemma get_entry h p k dflt : get p k dflt h = default dflt (entry h p k).
Proof. reflexivity. Qed.


End pipe_heap.

(** Normalising a chain of assignments read at one key. *)
Ltac pipe_lookup :=
  repeat first
    [ rewrite entry_setitem_ne_key by discriminate
    | rewrite entry_setitem_eq by (rewrite ?setitem_allocated; assumption) ].



(** ** Parameter pipe, checkpoint direction *)


(** The pipes of the concrete sessions are allocated. *)
Lemma session_user_pipe_allocated : is_Some (Session.h1 !! Session.user_pipe).
Proof. unfold Session.h1. rewrite lookup_insert_eq. eauto. Qed.

Lemma session_defaults_allocated :
  is_Some (Session.h0 !! Pipe.d_checkpoint_models_to_parameter_pipe Session.D) ∧
  is_Some (Session.h0 !! Pipe.d_prompt_to_parameter_pipe Session.D).
Proof. split; vm_compute; eauto. Qed.


(** Membership of a key in a literal key list, as disequalities. *)
Ltac split_not_elem_of :=
  repeat match goal with
    | H : _ ∉ _ :: _ |- _ => apply not_elem_of_cons in H; destruct H
    end.

(** C3: a to-pipe call changes no entry of any pipe other than the keys
    it assigns: every key outside [checkpoint_keys] (respectively
    [prompt_keys]) reads the same before and after, in the pipe written
    and in every other pipe. *)
Theorem to_pipe_frame (D : Pipe.defaults) (pipe : option Pipe.loc)
    (ckpt_name : value)
    (secondary_ckpt_name vae_name upscaler_name secondary_upscaler_name
     lora_1_name lora_2_name lora_3_name : option value)
    (positive negative : value) (image mask : option value)
    (h : gmap Pipe.loc (gmap string value)) (q : Pipe.loc) (k k' : string) :
  k ∉ Pipe.checkpoint_keys →
  k' ∉ Pipe.prompt_keys →
  Pipe.entry (Pipe.checkpoint_models_to_parameter_pipe D ckpt_name pipe
                secondary_ckpt_name vae_name upscaler_name
                secondary_upscaler_name lora_1_name lora_2_name lora_3_name h).2
             q k = Pipe.entry h q k ∧
  Pipe.entry (Pipe.prompt_to_parameter_pipe D positive negative pipe image mask h).2
             q k' = Pipe.entry h q k'.
Proof.
  unfold Pipe.checkpoint_keys, Pipe.prompt_keys. intros Hk Hk'.
  split_not_elem_of. simpl.
  split; by rewrite !entry_setitem_ne_key.
Qed.

Lemma to_pipe_frame_witness :
  let after_ckpt :=
    (Pipe.checkpoint_models_to_parameter_pipe Session.D (VStr "a.ckpt")
       (Some Session.user_pipe) None None None None None None None Session.h1).2 in
  let after_prompt :=
    (Pipe.prompt_to_parameter_pipe Session.D (VStr "pos") (VStr "neg")
       (Some Session.user_pipe) None None Session.h1).2 in
  Pipe.entry after_ckpt Session.user_pipe "positive" = Some (VStr "old") ∧
  Pipe.entry after_prompt Session.user_pipe "vae_name" = Some (VStr "old.vae").
Proof.
  destruct (to_pipe_frame Session.D (Some Session.user_pipe) (VStr "a.ckpt")
              None None None None None None None (VStr "pos") (VStr "neg") None None
              Session.h1 Session.user_pipe "positive" "vae_name")
    as [Hc Hp].
  - apply (bool_decide_unpack _). vm_compute. exact I.
  - apply (bool_decide_unpack _). vm_compute. exact I.
  - split.
    + etrans; [exact Hc | reflexivity].
    + etrans; [exact Hp | reflexivity].
Defined.



(** ** Parameter pipe, prompt direction *)



(** ** Reading a pipe *)

(** C9: the two from-pipe nodes return the heap they were given, so no
    pipe gains, loses or changes an entry, whether the pipe is passed or
    defaulted; and the first component of their result is the pipe they
    were called with. *)
Theorem from_pipe_read_only (D : Pipe.defaults) (given : option Pipe.loc)
    (pipe : Pipe.loc) (h : gmap Pipe.loc (gmap string value)) :
  (Pipe.parameter_pipe_to_checkpoint_models D given h).2 = h ∧
  (Pipe.parameter_pipe_to_prompt D given h).2 = h ∧
  Pipe.cm_pipe (Pipe.parameter_pipe_to_checkpoint_models D (Some pipe) h).1 = pipe ∧
  Pipe.pr_pipe (Pipe.parameter_pipe_to_prompt D (Some pipe) h).1 = pipe.
Proof. repeat split. Qed.

(** ** The default pipe *)

(** C10: a to-pipe call without a pipe argument works on the function's
    one default dict.  Two such calls return the same pipe, and what the
    pipe returned by the first call holds after the second call are the
    second call's values. *)
Theorem default_pipe_is_shared (D : Pipe.defaults)
    (a1 a2 : checkpoint_args) (b1 b2 : prompt_args)
    (h : gmap Pipe.loc (gmap string value)) :
  is_Some (h !! Pipe.d_checkpoint_models_to_parameter_pipe D) →
  is_Some (h !! Pipe.d_prompt_to_parameter_pipe D) →
  let c1 := call_checkpoint_models_to_parameter_pipe D a1 None h in
  let c2 := call_checkpoint_models_to_parameter_pipe D a2 None c1.2 in
  let p1 := call_prompt_to_parameter_pipe D b1 None h in
  let p2 := call_prompt_to_parameter_pipe D b2 None p1.2 in
  let given := kwarg (VStr "None") in
  (c2.1 = c1.1 ∧
   (Pipe.parameter_pipe_to_checkpoint_models D (Some c1.1) c2.2).1 =
     {| Pipe.cm_pipe := c1.1;
        Pipe.cm_ckpt_name := Pipe.name_or_none (a_ckpt_name a2);
        Pipe.cm_secondary_ckpt_name :=
          Pipe.name_or_none (given (a_secondary_ckpt_name a2));
        Pipe.cm_vae_name := Pipe.name_or_none (given (a_vae_name a2));
        Pipe.cm_upscaler_name := Pipe.name_or_none (given (a_upscaler_name a2));
        Pipe.cm_secondary_upscaler_name :=
          Pipe.name_or_none (given (a_secondary_upscaler_name a2));
        Pipe.cm_lora_1_name := Pipe.name_or_none (given (a_lora_1_name a2));
        Pipe.cm_lora_2_name := Pipe.name_or_none (given (a_lora_2_name a2));
        Pipe.cm_lora_3_name := Pipe.name_or_none (given (a_lora_3_name a2)) |}) ∧
  (p2.1 = p1.1 ∧
   (Pipe.parameter_pipe_to_prompt D (Some p1.1) p2.2).1 =
     {| Pipe.pr_pipe := p1.1;
        Pipe.pr_positive := a_positive b2;
        Pipe.pr_negative := a_negative b2;
        Pipe.pr_image := default VNone (a_image b2);
        Pipe.pr_mask := default VNone (a_mask b2) |}).
Proof.
  intros Hc Hp c1 c2 p1 p2 given. subst c1 c2 p1 p2 given.
  unfold Pipe.parameter_pipe_to_checkpoint_models, Pipe.parameter_pipe_to_prompt,
    call_checkpoint_models_to_parameter_pipe, call_prompt_to_parameter_pipe,
    Pipe.checkpoint_models_to_parameter_pipe, Pipe.prompt_to_parameter_pipe.
  cbn [fst snd kwarg default]. rewrite !get_entry.
  split; (split; [reflexivity |]).
  - pipe_lookup. reflexivity.
  - pipe_lookup. reflexivity.
Qed.

Lemma default_pipe_is_shared_witness :
  let c1 := call_checkpoint_models_to_parameter_pipe
              Session.D Session.first_ckpt None Session.h0 in
  let c2 := call_checkpoint_models_to_parameter_pipe
              Session.D Session.second_ckpt None c1.2 in
  let p1 := call_prompt_to_parameter_pipe
              Session.D Session.first_prompt None Session.h0 in
  let p2 := call_prompt_to_parameter_pipe
              Session.D Session.second_prompt None p1.2 in
  (Pipe.get c1.1 "ckpt_name" VNone c1.2 = VStr "a.ckpt" ∧
   Pipe.get p1.1 "positive" VNone p1.2 = VStr "first") ∧
  (Pipe.cm_ckpt_name (Pipe.parameter_pipe_to_checkpoint_models
                        Session.D (Some c1.1) c2.2).1 = VStr "b.ckpt" ∧
   Pipe.cm_vae_name (Pipe.parameter_pipe_to_checkpoint_models
                       Session.D (Some c1.1) c2.2).1 = VNone) ∧
  (Pipe.pr_positive (Pipe.parameter_pipe_to_prompt
                       Session.D (Some p1.1) p2.2).1 = VStr "second" ∧
   Pipe.pr_image (Pipe.parameter_pipe_to_prompt
                    Session.D (Some p1.1) p2.2).1 = VNone).
Proof.
  destruct session_defaults_allocated as [Hc Hp].
  destruct (default_pipe_is_shared Session.D Session.first_ckpt Session.second_ckpt
              Session.first_prompt Session.second_prompt Session.h0 Hc Hp)
    as ([_ Hck] & [_ Hpr]).
  cbv zeta. split; [split; reflexivity |].
  rewrite Hck, Hpr. repeat split.
Defined.

(** ** Upload Sink *)

Lemma upload_images_files_names (H : Upload.host) prompt extra
    (images : list (ndarray spec_float)) :
  fe_filename <$> imap (Upload.file_of H prompt extra) images =
    (λ i : nat, "image-" +:+ pretty i +:+ ".png") <$> seq 0 (length images).
Proof.
  rewrite fmap_imap, <-imap_seq_0. by apply imap_ext.
Qed.

Lemma upload_images_files_shape (H : Upload.host) prompt extra
    (images : list (ndarray spec_float)) :
  Forall (λ f, fe_field f = "files" ∧ fe_mime f = "image/png")
         (imap (Upload.file_of H prompt extra) images).
Proof.
  apply Forall_lookup_2. intros i f. rewrite list_lookup_imap.
  destruct (images !! i); simpl; [|done]. by intros [= <-].
Qed.

(** C6: one call hands [upload_to_av] exactly one batch.  For n images
    it has n file entries, named [image-0.png] to [image-(n-1).png] in
    order, each in field [files] with mime type [image/png]; the
    additional fields are [success = "true"], [folderId] equal to the
    folder identifier exactly when one is supplied, and nothing else.
    This holds whether or not the upload then fails. *)
Theorem upload_images_batch (H : Upload.host)
    (images : list (ndarray spec_float)) (folder_id : option string)
    (prompt : option Upload.json)
    (extra_pnginfo : option (list (string * Upload.json))) :
  ∃ files data,
    Upload.uploads (Upload.upload_images H images folder_id prompt extra_pnginfo)
      = [(files, data)] ∧
    length files = length images ∧
    fe_filename <$> files =
      (λ i : nat, "image-" +:+ pretty i +:+ ".png") <$> seq 0 (length images) ∧
    Forall (λ f, fe_field f = "files" ∧ fe_mime f = "image/png") files ∧
    data !! "success" = Some "true" ∧
    data !! "folderId" = folder_id ∧
    (∀ k, k ≠ "success" → k ≠ "folderId" → data !! k = None).
Proof.
  unfold Upload.upload_images. eexists _, _. split.
  - unfold Upload.uploads, trace.
    destruct (Upload.upload_to_av H _ _); reflexivity.
  - split; [apply length_imap |].
    split; [apply upload_images_files_names |].
    split; [apply upload_images_files_shape |].
    destruct folder_id as [f|].
    + split; [by rewrite lookup_insert_ne, lookup_singleton_eq |].
      split; [by rewrite lookup_insert_eq |].
      intros k Hs Hf. by rewrite lookup_insert_ne, lookup_singleton_ne.
    + split; [by rewrite lookup_singleton_eq |].
      split; [by rewrite lookup_singleton_ne |].
      intros k Hs Hf. by rewrite lookup_singleton_ne.
Qed.

Lemma upload_images_batch_witness :
  ∃ files data,
    Upload.uploads (Upload.upload_images Session.upload_host
                      [Session.one_pixel] (Some "f1") None None)
      = [(files, data)] ∧
    fe_filename <$> files = ["image-0.png"] ∧
    data !! "success" = Some "true" ∧
    data !! "folderId" = Some "f1".
Proof.
  destruct (upload_images_batch Session.upload_host [Session.one_pixel]
              (Some "f1") None None)
    as (files & data & Hbatch & _ & Hnames & _ & Hsuccess & Hfolder & _).
  exists files, data. repeat split; [exact Hbatch | | exact Hsuccess | exact Hfolder].
  etrans; [exact Hnames | vm_compute; reflexivity].
Defined.

(** ** Image Ingest: running the effect monad *)

Section eff_monad.
Context {A B : Type}.
Implicit Types (m : eff A) (k : A → eff B).

Lemma eff_bind_ok m k t a :
  m = (t, Ok a) → m ≫= k = (t ++ trace (k a), outcome (k a)).
Proof. intros ->. unfold mbind, eff_bind. by destruct (k a). Qed.

Lemma eff_bind_raise m k t e :
  m = (t, Raise e) → m ≫= k = (t, Raise e).
Proof. by intros ->. Qed.

Lemma outcome_bind m k :
  outcome (m ≫= k) =
    match outcome m with
    | Ok a => outcome (k a)
    | Raise e => Raise e
    end.
Proof.
  destruct m as [t [a|e]]; [|done].
  by rewrite (eff_bind_ok _ k t a).
Qed.

Lemma trace_bind m k :
  trace (m ≫= k) =
    match outcome m with
    | Ok a => trace m ++ trace (k a)
    | Raise e => trace m
    end.
Proof.
  destruct m as [t [a|e]]; [|done].
  by rewrite (eff_bind_ok _ k t a).
Qed.
End eff_monad.

(** ** Image Ingest: after the image is open *)

Lemma call_inl {A} (a : A) : Ingest.call (inl a) = ([], Ok a).
Proof. reflexivity. Qed.

(** Between opening the image and returning, the node calls PIL and
    [folder_paths] only: it makes no request, and what it raises is
    never the bare [Exception]. *)
Lemma process_image_quiet (H : Ingest.host) (s : Ingest.self)
    (keep : bool) (src : pil_image) :
  List.filter is_http_get (trace (Ingest.process_image H s keep src)) = [] ∧
  ∀ msg, outcome (Ingest.process_image H s keep src) ≠ Raise (PyException msg).
Proof.
  unfold Ingest.process_image.
  destruct (Ingest.exif_transpose H src) as [i|[cls msg]]; [|by split].
  rewrite (eff_bind_ok _ _ [] i) by done.
  assert (∀ image,
    let rest :=
      p ← Ingest.call (Ingest.get_save_image_path H (Ingest.filename_prefix s)
                         (Ingest.output_dir s) (im_width image) (im_height image));
      let file := Ingest.sp_filename p +:+ "_" +:+
                  format_05 (Ingest.sp_counter p) +:+ ".png" in
      emit (SavePng (Ingest.path_join H (Ingest.sp_outdir p) file) image 4);;
      Ingest.call (Ingest.Image_save H (Ingest.path_join H (Ingest.sp_outdir p) file)
                     image 4);;
      mret {| Ingest.ui_images :=
                [{| Ingest.pv_filename := file;
                    Ingest.pv_subfolder := Ingest.sp_subfolder p;
                    Ingest.pv_type := "temp" |}];
              Ingest.result_image :=
                add_batch_axis (nd_map Ingest.normalize (Ingest.np_array image));
              Ingest.result_mask := Ingest.mask_of i |} in
    List.filter is_http_get (trace rest) = [] ∧
    ∀ msg, outcome rest ≠ Raise (PyException msg)) as Hrest.
  { intros image.
    destruct (Ingest.get_save_image_path H _ _ _ _) as [p|[cls msg]]; [|by split].
    cbv zeta. rewrite (eff_bind_ok _ _ [] p) by done.
    rewrite (eff_bind_ok _ _ [SavePng _ _ 4] ()) by done.
    destruct (Ingest.Image_save H _ _ _) as [[]|[cls msg]]; [|by split].
    rewrite (eff_bind_ok _ _ [] ()) by done. by split. }
  cbn [app trace outcome fst snd]. destruct keep; cbn [negb].
  - rewrite (eff_bind_ok _ _ [] i) by done. apply (Hrest i).
  - destruct (Ingest.convert_RGB H i) as [image|[cls msg]]; [|by split].
    rewrite (eff_bind_ok _ _ [] image) by done. apply (Hrest image).
Qed.

(** When every step succeeds the node returns: the image tensor is that
    of the image saved, the mask is [mask_of] of the transposed image. *)
Lemma load_image_from_url_returns (H : Ingest.host) (s : Ingest.self)
    (url : string) (keep : option bool) (src i image : pil_image) :
  outcome (Ingest.open_url H url) = Ok src →
  preview_saved H s keep src i image →
  ∃ out, outcome (Ingest.load_image_from_url H s url keep) = Ok out ∧
         Ingest.result_image out =
           add_batch_axis (nd_map Ingest.normalize (Ingest.np_array image)) ∧
         Ingest.result_mask out = Ingest.mask_of i.
Proof.
  intros Hopen (Hi & Himage & p & Hp & Hsave).
  unfold Ingest.load_image_from_url. rewrite outcome_bind, Hopen.
  unfold Ingest.process_image. rewrite Hi, (eff_bind_ok _ _ [] i) by done.
  assert ((if negb (kwarg false keep) then Ingest.call (Ingest.convert_RGB H i)
           else mret i) = ([], Ok image)) as Hconv.
  { destruct (kwarg false keep); cbn [negb]; [by injection Himage as -> |].
    by rewrite Himage. }
  rewrite (eff_bind_ok _ _ [] image) by done.
  rewrite Hp, (eff_bind_ok _ _ [] p) by done.
  rewrite (eff_bind_ok _ _ [SavePng _ _ 4] ()) by done.
  rewrite Hsave, (eff_bind_ok _ _ [] ()) by done.
  cbn [outcome snd mret eff_ret]. eexists. split; [reflexivity |]. by split.
Qed.

(** And it returns in no other case. *)
Lemma load_image_from_url_returns_only (H : Ingest.host) (s : Ingest.self)
    (url : string) (keep : option bool) (out : Ingest.output) :
  outcome (Ingest.load_image_from_url H s url keep) = Ok out →
  ∃ src i image,
    outcome (Ingest.open_url H url) = Ok src ∧ preview_saved H s keep src i image.
Proof.
  unfold Ingest.load_image_from_url, preview_saved. rewrite outcome_bind.
  destruct (outcome (Ingest.open_url H url)) as [src|e]; [|done].
  unfold Ingest.process_image.
  destruct (Ingest.exif_transpose H src) as [i|[cls msg]] eqn:Hi; [|done].
  rewrite (eff_bind_ok _ _ [] i) by done. cbn [app trace outcome fst snd].
  assert (∃ conv, conv = (if kwarg false keep then inl i else Ingest.convert_RGB H i) ∧
                  (if negb (kwarg false keep) then Ingest.call (Ingest.convert_RGB H i)
                   else mret i) = Ingest.call conv) as (conv & Hconv & ->).
  { eexists. split; [reflexivity |]. by destruct (kwarg false keep). }
  destruct conv as [image|[cls msg]]; [|done].
  rewrite (eff_bind_ok _ _ [] image) by done. cbn [app trace outcome fst snd].
  destruct (Ingest.get_save_image_path H _ _ _ _) as [p|[cls msg]] eqn:Hp; [|done].
  rewrite (eff_bind_ok _ _ [] p) by done. cbn [app trace outcome fst snd].
  rewrite (eff_bind_ok _ _ [SavePng _ _ 4] ()) by done. cbn [app trace outcome fst snd].
  destruct (Ingest.Image_save H _ _ _) as [[]|[cls msg]] eqn:Hsave; [|done].
  intros _. exists src, i, image. split; [done |]. split; [done |].
  split; [done |]. exists p. by split.
Qed.

(** ** Image Ingest: the mask *)

(** The two ends of the alpha range, in float32 arithmetic: opaque
    (255) inverts to exactly 0, transparent (0) to exactly 1. *)
Lemma inverted_opaque : F32.sub F32.one (Ingest.normalize 255) = F32.zero.
Proof. vm_compute. reflexivity. Qed.

Lemma inverted_transparent : F32.sub F32.one (Ingest.normalize 0) = F32.one.
Proof. vm_compute. reflexivity. Qed.

(** Every 8-bit alpha sample inverts to a float32 in [0, 1], and a more
    opaque sample never inverts to a larger value. *)
Lemma inverted_alpha_range :
  forallb (λ a : nat,
    let v := F32.sub F32.one (Ingest.normalize (N.of_nat a)) in
    let v' := F32.sub F32.one (Ingest.normalize (N.of_nat (S a))) in
    F32.leb F32.zero v && F32.leb v F32.one && (bool_decide (a = 255%nat) || F32.leb v' v))
    (seq 0 256) = true.
Proof. vm_compute. reflexivity. Qed.

Lemma map_seq_const {X} (c : X) (j n : nat) :
  map (λ _, c) (seq j n) = replicate n c.
Proof. revert j. induction n as [|n IH]; intros j; simpl; [done | by rewrite IH]. Qed.

Lemma map_seq_ext {X} (f g : nat → X) (n : nat) :
  (∀ i, (i < n)%nat → f i = g i) → map f (seq 0 n) = map g (seq 0 n).
Proof.
  intros Hfg. apply map_ext_in. intros i Hi%in_seq. apply Hfg. lia.
Qed.

(** [getchannel] reads the first band of that name. *)
Lemma getchannel_present (name : string) (i : pil_image) :
  name ∈ Ingest.getbands i →
  ∃ plane, band_of i name plane ∧
    Ingest.getchannel name i =
      Some {| im_width := im_width i; im_height := im_height i;
              im_bands := [("L", plane)] |}.
Proof.
  unfold Ingest.getbands, Ingest.getchannel.
  intros (b & Hb & Hin)%list_elem_of_fmap.
  destruct (list_find_elem_of (λ b, b.1 = name) (im_bands i) b Hin)
    as [[k [name' plane]] Hfind]; [done |].
  rewrite Hfind. apply list_find_Some in Hfind as (Hk & Hname & Hfirst).
  cbn [fst] in Hname. subst name'. exists plane. split; [|done].
  exists k. split; [done |]. intros j b' Hj Hb'. by apply (Hfirst j).
Qed.

Lemma mask_of_no_alpha (i : pil_image) :
  "A" ∉ Ingest.getbands i → Ingest.mask_of i = full2 64 64 F32.zero.
Proof.
  intros Hno. unfold Ingest.mask_of, Ingest.has_band.
  by rewrite bool_decide_eq_false_2.
Qed.

Lemma mask_of_alpha (i : pil_image) (plane : list (list N)) :
  "A" ∈ Ingest.getbands i →
  Ingest.getchannel "A" i =
    Some {| im_width := im_width i; im_height := im_height i;
            im_bands := [("L", plane)] |} →
  Ingest.mask_of i =
    Nd (map (λ y, Nd (map (λ x,
          Sc (F32.sub F32.one (Ingest.normalize (Ingest.sample plane y x))))
          (seq 0 (im_width i)))) (seq 0 (im_height i))).
Proof.
  intros Hin Hget. unfold Ingest.mask_of, Ingest.has_band.
  rewrite bool_decide_eq_true_2 by done. rewrite Hget.
  unfold Ingest.np_array. cbn [im_bands im_width im_height nd_map].
  rewrite !List.map_map. f_equal. apply map_ext. intros y.
  cbn [nd_map]. rewrite !List.map_map. f_equal.
Qed.

Lemma mask_of_constant_alpha (w h : nat) (plane : list (list N)) (a : N) :
  (∀ y x, (y < h)%nat → (x < w)%nat → Ingest.sample plane y x = a) →
  Nd (map (λ y, Nd (map (λ x,
        Sc (F32.sub F32.one (Ingest.normalize (Ingest.sample plane y x))))
        (seq 0 w))) (seq 0 h)) =
    full2 h w (F32.sub F32.one (Ingest.normalize a)).
Proof.
  intros Hall. unfold full2. f_equal.
  rewrite <-(map_seq_const _ 0 h). apply map_seq_ext. intros y Hy. f_equal.
  rewrite <-(map_seq_const _ 0 w). apply map_seq_ext. intros x Hx.
  by rewrite Hall.
Qed.

(** C7, as stated, fails: an image can be decoded and still yield no
    mask.  A CMYK image has no alpha channel; kept as it is
    ([keep_alpha_channel] on) it reaches [image.save], PIL's PNG writer
    refuses the mode, and the node raises instead of returning the
    64 x 64 zero mask.  With the flag off the same image is converted,
    saved and gets that mask. *)
Lemma load_image_from_url_unwritable_mode :
  let H := Session.host_of Session.cmyk_pixel in
  outcome (Ingest.open_url H Session.data_uri) = Ok Session.cmyk_pixel ∧
  ("A" ∉ Ingest.getbands Session.cmyk_pixel) ∧
  Ingest.load_image_from_url H (Ingest.init H) Session.data_uri (Some true) =
    ([SavePng "/tmp/TempImageFromUrl_00001.png" Session.cmyk_pixel 4],
     Raise (LibraryError "OSError" "cannot write mode CMYK as PNG")) ∧
  ∃ out,
    outcome (Ingest.load_image_from_url H (Ingest.init H) Session.data_uri None)
      = Ok out ∧
    Ingest.result_mask out = full2 64 64 F32.zero.
Proof.
  split; [reflexivity |]. split; [|split; [reflexivity |]].
  - apply (bool_decide_unpack _). vm_compute. exact I.
  - eexists. split; reflexivity.
Qed.

(** C7, amended: whenever the source image is opened and the steps
    before the tensors succeed (transposition, conversion unless alpha
    is kept, path lookup, saving the preview), the node returns, and
    with [i] the image after EXIF transposition its mask is the 64 x 64
    all-zero array if [i] has no band [A]; otherwise it has the height
    and width of [i] and each sample is 1 minus the sample of [i]'s band
    [A] divided by 255, in float32.  A band that is 255 everywhere gives
    the all-zero mask, one that is 0 everywhere the all-one mask. *)
Theorem load_image_from_url_mask (H : Ingest.host) (s : Ingest.self)
    (url : string) (keep_alpha_channel : option bool) (src i image : pil_image) :
  outcome (Ingest.open_url H url) = Ok src →
  preview_saved H s keep_alpha_channel src i image →
  ∃ out,
    outcome (Ingest.load_image_from_url H s url keep_alpha_channel) = Ok out ∧
    ("A" ∉ Ingest.getbands i →
       Ingest.result_mask out = full2 64 64 F32.zero) ∧
    ("A" ∈ Ingest.getbands i →
       ∃ plane,
         band_of i "A" plane ∧
         Ingest.result_mask out =
           Nd (map (λ y, Nd (map (λ x,
                 Sc (F32.sub F32.one (Ingest.normalize (Ingest.sample plane y x))))
                 (seq 0 (im_width i)))) (seq 0 (im_height i))) ∧
         ((∀ y x, (y < im_height i)%nat → (x < im_width i)%nat →
                  Ingest.sample plane y x = 255%N) →
          Ingest.result_mask out = full2 (im_height i) (im_width i) F32.zero) ∧
         ((∀ y x, (y < im_height i)%nat → (x < im_width i)%nat →
                  Ingest.sample plane y x = 0%N) →
          Ingest.result_mask out = full2 (im_height i) (im_width i) F32.one)).
Proof.
  intros Hopen Hsteps.
  destruct (load_image_from_url_returns H s url keep_alpha_channel src i image
              Hopen Hsteps) as (out & Hout & _ & Hmask).
  exists out. split; [done |]. rewrite Hmask. split.
  - apply mask_of_no_alpha.
  - intros Hin. destruct (getchannel_present "A" i Hin) as (plane & Hband & Hget).
    exists plane. split; [done |].
    rewrite (mask_of_alpha i plane Hin Hget). split; [done |]. split.
    + intros Hall. rewrite (mask_of_constant_alpha _ _ _ _ Hall).
      by rewrite inverted_opaque.
    + intros Hall. rewrite (mask_of_constant_alpha _ _ _ _ Hall).
      by rewrite inverted_transparent.
Qed.

(** The steps succeed on the hosts of the sessions when the image is
    kept as decoded. *)
Lemma session_preview_saved :
  preview_saved (Session.host_of Session.two_pixels)
    (Ingest.init (Session.host_of Session.two_pixels)) (Some true)
    Session.two_pixels Session.two_pixels Session.two_pixels ∧
  preview_saved (Session.ingest_host 200) (Ingest.init (Session.ingest_host 200))
    (Some true) Session.opaque_pixel Session.opaque_pixel Session.opaque_pixel ∧
  preview_saved (Session.ingest_host 200) (Ingest.init (Session.ingest_host 200))
    None Session.opaque_pixel Session.opaque_pixel Session.rgb_pixel.
Proof.
  repeat split; try reflexivity; eexists; split; reflexivity.
Qed.

Lemma load_image_from_url_mask_witness :
  ∃ out,
    outcome (Ingest.load_image_from_url (Session.host_of Session.two_pixels)
               (Ingest.init (Session.host_of Session.two_pixels))
               Session.data_uri (Some true))
      = Ok out ∧
    Ingest.result_mask out = Nd [Nd [Sc F32.zero; Sc F32.one]].
Proof.
  destruct (load_image_from_url_mask (Session.host_of Session.two_pixels)
              (Ingest.init (Session.host_of Session.two_pixels))
              Session.data_uri (Some true)
              Session.two_pixels Session.two_pixels Session.two_pixels
              eq_refl (proj1 session_preview_saved)) as (out & Hout & _ & Halpha).
  exists out. split; [exact Hout |].
  destruct Halpha as (plane & (k & Hk & _) & Hmask & _).
  - apply (bool_decide_unpack _). vm_compute. exact I.
  - rewrite Hmask.
    destruct k as [|[|[|[|k]]]]; try discriminate Hk.
    injection Hk as <-. vm_compute. reflexivity.
Defined.

(** ** Image Ingest: the fetch *)

Lemma list_getitem_raises {X} (l : list X) (i : Z) (e : exn) :
  list_getitem l i = Raise e → e = IndexError.
Proof.
  unfold list_getitem.
  destruct (_ || _); [by intros [= <-] |].
  destruct (l !! _); [done | by intros [= <-]].
Qed.

(** The data-URI branch touches no network and raises no bare
    [Exception]. *)
Lemma open_url_data_uri (H : Ingest.host) (url : string) :
  String.prefix "data:image/" url = true →
  trace (Ingest.open_url H url) = [] ∧
  ∀ msg, outcome (Ingest.open_url H url) ≠ Raise (PyException msg).
Proof.
  intros Hdata. unfold Ingest.open_url. rewrite Hdata. unfold lift.
  destruct (list_getitem (str_split ","%char url) 1) as [payload|e] eqn:Hsplit.
  - rewrite (eff_bind_ok _ _ [] payload) by done.
    destruct (Ingest.b64decode H payload) as [raw|]; cbn [from_option app trace outcome fst snd].
    + rewrite (eff_bind_ok _ _ [] raw) by done.
      destruct (Ingest.Image_open H raw); done.
    + rewrite (eff_bind_raise _ _ [] BinasciiError) by done. done.
  - rewrite (eff_bind_raise _ _ [] e) by done.
    apply list_getitem_raises in Hsplit as ->. done.
Qed.

(** The other branch performs one GET with a timeout of 5 and decides
    on the status code alone. *)
Lemma open_url_http (H : Ingest.host) (url : string) :
  String.prefix "data:image/" url = false →
  trace (Ingest.open_url H url) = [HttpGet url 5] ∧
  outcome (Ingest.open_url H url) =
    match Ingest.requests_get H url 5 with
    | inr msg => Raise (RequestException msg)
    | inl r =>
        if Ingest.status_code r =? 200 then
          from_option Ok (Raise UnidentifiedImageError)
            (Ingest.Image_open H (Ingest.content r))
        else Raise (PyException (Ingest.text r))
    end.
Proof.
  intros Hhttp. unfold Ingest.open_url. rewrite Hhttp.
  rewrite (eff_bind_ok _ _ [HttpGet url 5] ()) by done.
  destruct (Ingest.requests_get H url 5) as [r|msg]; [|done].
  destruct (Ingest.status_code r =? 200); [|done].
  by destruct (Ingest.Image_open H (Ingest.content r)).
Qed.

(** After the image is open the node makes no further request. *)
Lemma load_image_from_url_trace (H : Ingest.host) (s : Ingest.self)
    (url : string) (keep : option bool) :
  List.filter is_http_get (trace (Ingest.load_image_from_url H s url keep)) =
    List.filter is_http_get (trace (Ingest.open_url H url)).
Proof.
  unfold Ingest.load_image_from_url. rewrite trace_bind.
  destruct (outcome (Ingest.open_url H url)) as [src|e]; [|done].
  rewrite List.filter_app.
  destruct (process_image_quiet H s (kwarg false keep) src) as [-> _].
  by rewrite app_nil_r.
Qed.

(** The bare [Exception] can only come from the fetch. *)
Lemma load_image_from_url_raises (H : Ingest.host) (s : Ingest.self)
    (url : string) (keep : option bool) (msg : string) :
  outcome (Ingest.load_image_from_url H s url keep) = Raise (PyException msg) ↔
  outcome (Ingest.open_url H url) = Raise (PyException msg).
Proof.
  unfold Ingest.load_image_from_url. rewrite outcome_bind.
  destruct (outcome (Ingest.open_url H url)) as [src|e].
  - destruct (process_image_quiet H s (kwarg false keep) src) as [_ Hnever].
    split; [by intros ?%Hnever | discriminate].
  - split; intros [= ->]; reflexivity.
Qed.

(** C8, as stated, fails: 203 is a success (2xx) status, and the node
    still raises the bare [Exception] carrying the response text. *)
Lemma load_image_from_url_rejects_2xx :
  let H := Session.ingest_host 203 in
  (200 <= 203 < 300) ∧
  Ingest.requests_get H Session.http_url 5 =
    inl {| Ingest.status_code := 203; Ingest.text := "answer body";
           Ingest.content := [] |} ∧
  Ingest.load_image_from_url H (Ingest.init H) Session.http_url None =
    ([HttpGet Session.http_url 5], Raise (PyException "answer body")).
Proof. repeat split; (lia || reflexivity). Qed.

(** C8, amended: a URL that is not a data URI is fetched with exactly
    one GET, with timeout 5; a data URI with none.  The node raises the
    bare [Exception] exactly when that GET answers with a status code
    other than 200, and then with the response text as message: status
    200 never raises it, every other status (other 2xx included) does. *)
Theorem load_image_from_url_fetch (H : Ingest.host) (s : Ingest.self)
    (url : string) (keep_alpha_channel : option bool) :
  let run := Ingest.load_image_from_url H s url keep_alpha_channel in
  List.filter is_http_get (trace run) =
    (if String.prefix "data:image/" url then [] else [HttpGet url 5]) ∧
  (∀ msg,
     outcome run = Raise (PyException msg) ↔
     String.prefix "data:image/" url = false ∧
     ∃ r, Ingest.requests_get H url 5 = inl r ∧
          Ingest.status_code r ≠ 200 ∧ Ingest.text r = msg).
Proof.
  intros run. subst run. rewrite load_image_from_url_trace. split.
  - destruct (String.prefix "data:image/" url) eqn:Hpre.
    + by destruct (open_url_data_uri H url Hpre) as [-> _].
    + by destruct (open_url_http H url Hpre) as [-> _].
  - intros msg. rewrite load_image_from_url_raises.
    destruct (String.prefix "data:image/" url) eqn:Hpre.
    + destruct (open_url_data_uri H url Hpre) as [_ Hnever].
      split; [by intros ?%Hnever | by intros [? _]].
    + destruct (open_url_http H url Hpre) as [_ ->].
      destruct (Ingest.requests_get H url 5) as [r|err].
      * destruct (Z.eqb_spec (Ingest.status_code r) 200) as [H200|Hne].
        -- split.
           ++ by destruct (Ingest.Image_open H (Ingest.content r)).
           ++ intros (_ & r' & [= <-] & Hr' & _). done.
        -- split.
           ++ intros [= <-]. eauto.
           ++ intros (_ & r' & [= <-] & _ & <-). done.
      * split; [done |]. intros (_ & r' & [=] & _).
Qed.


(** * Further properties *)

(** ** Parameter pipes: a to-pipe call as a dict update *)

Lemma setitems_update (p : Pipe.loc) (kvs : list (string * value))
    (h : gmap Pipe.loc (gmap string value)) :
  foldr (λ kv, Pipe.setitem p kv.1 kv.2) h kvs =
    alter (λ d, list_to_map kvs ∪ d) p h.
Proof.
  induction kvs as [|[k v] kvs IH]; simpl.
  - symmetry. rewrite <-(alter_id (λ d, d) h p) at 2 by done.
    apply alter_ext. intros d _. by rewrite (left_id_L ∅ (∪)).
  - rewrite IH. unfold Pipe.setitem. rewrite alter_alter_eq.
    apply alter_ext. intros d _. simpl. by rewrite insert_union_l.
Qed.

Lemma checkpoint_models_to_parameter_pipe_update (D : Pipe.defaults)
    (ckpt_name : value) (pipe : option Pipe.loc)
    (s v u su l1 l2 l3 : option value)
    (h : gmap Pipe.loc (gmap string value)) :
  (Pipe.checkpoint_models_to_parameter_pipe D ckpt_name pipe s v u su l1 l2 l3 h).2 =
    alter (λ d, list_to_map (checkpoint_entries ckpt_name s v u su l1 l2 l3) ∪ d)
          (kwarg (Pipe.d_checkpoint_models_to_parameter_pipe D) pipe) h.
Proof. by rewrite <-setitems_update. Qed.

Lemma prompt_to_parameter_pipe_update (D : Pipe.defaults)
    (positive negative : value) (pipe : option Pipe.loc)
    (image mask : option value) (h : gmap Pipe.loc (gmap string value)) :
  (Pipe.prompt_to_parameter_pipe D positive negative pipe image mask h).2 =
    alter (λ d, list_to_map (prompt_entries positive negative image mask) ∪ d)
          (kwarg (Pipe.d_prompt_to_parameter_pipe D) pipe) h.
Proof. by rewrite <-setitems_update. Qed.

Lemma checkpoint_entries_keys ckpt_name s v u su l1 l2 l3 :
  (checkpoint_entries ckpt_name s v u su l1 l2 l3).*1 = reverse Pipe.checkpoint_keys.
Proof. reflexivity. Qed.

Lemma prompt_entries_keys positive negative image mask :
  (prompt_entries positive negative image mask).*1 = reverse Pipe.prompt_keys.
Proof. reflexivity. Qed.

Lemma to_pipe_keys_distinct :
  NoDup (Pipe.checkpoint_keys ++ Pipe.prompt_keys).
Proof. apply (bool_decide_unpack _). vm_compute. exact I. Qed.

Lemma to_pipe_entries_disjoint ckpt_name s v u su l1 l2 l3 positive negative image mask :
  (list_to_map (checkpoint_entries ckpt_name s v u su l1 l2 l3) : gmap string value)
    ##ₘ list_to_map (prompt_entries positive negative image mask).
Proof.
  apply map_disjoint_dom. rewrite !dom_list_to_map_L.
  rewrite checkpoint_entries_keys, prompt_entries_keys.
  apply elem_of_disjoint. intros k Hc%elem_of_list_to_set Hp%elem_of_list_to_set.
  rewrite elem_of_reverse in Hc. rewrite elem_of_reverse in Hp.
  pose proof to_pipe_keys_distinct as Hnd. apply NoDup_app in Hnd as (_ & Hdis & _).
  by apply (Hdis k).
Qed.

(** X1: the two to-pipe nodes write disjoint keys, so applying them to
    any two pipes (the same one or not) gives the same heap in either
    order. *)
Theorem to_pipe_calls_commute (D : Pipe.defaults) (p q : Pipe.loc)
    (a : checkpoint_args) (b : prompt_args)
    (h : gmap Pipe.loc (gmap string value)) :
  (call_checkpoint_models_to_parameter_pipe D a (Some p)
     (call_prompt_to_parameter_pipe D b (Some q) h).2).2 =
  (call_prompt_to_parameter_pipe D b (Some q)
     (call_checkpoint_models_to_parameter_pipe D a (Some p) h).2).2.
Proof.
  unfold call_checkpoint_models_to_parameter_pipe, call_prompt_to_parameter_pipe.
  rewrite !checkpoint_models_to_parameter_pipe_update, !prompt_to_parameter_pipe_update.
  cbn [kwarg default]. destruct (decide (p = q)) as [->|Hne].
  - rewrite !alter_alter_eq. apply alter_ext. intros d _. cbv beta delta [compose].
    rewrite !(assoc_L (∪)).
    by rewrite (map_union_comm _ _ (to_pipe_entries_disjoint _ _ _ _ _ _ _ _ _ _ _ _)).
  - by apply alter_alter_ne.
Qed.

(** X2: a to-pipe call repeated with the same arguments on the same
    pipe changes nothing the second time. *)
Theorem to_pipe_calls_idempotent (D : Pipe.defaults) (pipe : option Pipe.loc)
    (a : checkpoint_args) (b : prompt_args)
    (h : gmap Pipe.loc (gmap string value)) :
  let after_ckpt := (call_checkpoint_models_to_parameter_pipe D a pipe h).2 in
  let after_prompt := (call_prompt_to_parameter_pipe D b pipe h).2 in
  (call_checkpoint_models_to_parameter_pipe D a pipe after_ckpt).2 = after_ckpt ∧
  (call_prompt_to_parameter_pipe D b pipe after_prompt).2 = after_prompt.
Proof.
  unfold call_checkpoint_models_to_parameter_pipe, call_prompt_to_parameter_pipe.
  cbv zeta.
  rewrite !checkpoint_models_to_parameter_pipe_update, !prompt_to_parameter_pipe_update.
  rewrite !alter_alter_eq.
  split; apply alter_ext; intros d _; simpl;
    by rewrite (assoc_L (∪)), (idemp_L (∪)).
Qed.

(** X3: on a live pipe a to-pipe call adds exactly its own keys to the
    keys already there, and neither creates nor removes a pipe. *)
Theorem to_pipe_key_set (D : Pipe.defaults) (p : Pipe.loc)
    (a : checkpoint_args) (b : prompt_args)
    (h : gmap Pipe.loc (gmap string value)) (d : gmap string value) :
  h !! p = Some d →
  let after_ckpt := (call_checkpoint_models_to_parameter_pipe D a (Some p) h).2 in
  let after_prompt := (call_prompt_to_parameter_pipe D b (Some p) h).2 in
  (∃ d', after_ckpt !! p = Some d' ∧
         dom d' = list_to_set Pipe.checkpoint_keys ∪ dom d) ∧
  (∃ d', after_prompt !! p = Some d' ∧
         dom d' = list_to_set Pipe.prompt_keys ∪ dom d) ∧
  dom after_ckpt = dom h ∧ dom after_prompt = dom h.
Proof.
  intros Hd. unfold call_checkpoint_models_to_parameter_pipe,
    call_prompt_to_parameter_pipe. cbv zeta.
  rewrite checkpoint_models_to_parameter_pipe_update, prompt_to_parameter_pipe_update.
  cbn [kwarg default from_option id]. rewrite !dom_alter_L.
  split; [|split; [|done]].
  - eexists. split; [by rewrite lookup_alter_eq, Hd |].
    rewrite dom_union_L, dom_list_to_map_L, checkpoint_entries_keys.
    by f_equal.
  - eexists. split; [by rewrite lookup_alter_eq, Hd |].
    rewrite dom_union_L, dom_list_to_map_L, prompt_entries_keys.
    by f_equal.
Qed.

Lemma to_pipe_key_set_witness :
  ∃ d', (call_checkpoint_models_to_parameter_pipe Session.D Session.first_ckpt
           (Some Session.user_pipe) Session.h1).2 !! Session.user_pipe = Some d' ∧
        "seed" ∈ dom d' ∧ "ckpt_name" ∈ dom d'.
Proof.
  destruct (to_pipe_key_set Session.D Session.user_pipe Session.first_ckpt
              Session.first_prompt Session.h1 _ (lookup_insert_eq _ _ _))
    as ((d' & Hd' & Hdom) & _).
  exists d'. split; [exact Hd' |]. rewrite Hdom.
  split; apply (bool_decide_unpack _); vm_compute; exact I.
Defined.

Lemma name_or_none_not_sentinel (v : value) : Pipe.name_or_none v ≠ VStr "None".
Proof.
  unfold Pipe.name_or_none, Pipe.ne_sentinel. destruct v as [|s| |]; try done.
  destruct (String.eqb_spec s "None") as [->|Hne]; simpl; [done | congruence].
Qed.

(** X4: whatever the arguments, after a checkpoint to-pipe call none of
    the eight name keys of the pipe holds the string ["None"]. *)
Theorem checkpoint_pipe_never_holds_sentinel (D : Pipe.defaults)
    (a : checkpoint_args) (pipe : option Pipe.loc)
    (h : gmap Pipe.loc (gmap string value)) (k : string) :
  k ∈ Pipe.checkpoint_keys →
  let r := call_checkpoint_models_to_parameter_pipe D a pipe h in
  Pipe.entry r.2 r.1 k ≠ Some (VStr "None").
Proof.
  intros Hk. unfold call_checkpoint_models_to_parameter_pipe. cbv zeta.
  rewrite checkpoint_models_to_parameter_pipe_update.
  cbn [fst Pipe.checkpoint_models_to_parameter_pipe]. unfold Pipe.entry.
  rewrite lookup_alter_eq. destruct (h !! _) as [d|]; [|done].
  cbn [fmap option_fmap option_map mbind option_bind].
  match goal with
  | |- context [(?m ∪ d) !! k] => destruct (m !! k) as [v|] eqn:Hv
  end.
  - rewrite (lookup_union_Some_l _ _ _ _ Hv).
    apply elem_of_list_to_map_2 in Hv. unfold checkpoint_entries in Hv.
    repeat (apply elem_of_cons in Hv as [[= _ ->]|Hv];
            [intros [= Hs]; by apply name_or_none_not_sentinel in Hs |]).
    by apply elem_of_nil in Hv.
  - apply not_elem_of_list_to_map in Hv.
    rewrite checkpoint_entries_keys, elem_of_reverse in Hv. done.
Qed.

Lemma checkpoint_pipe_never_holds_sentinel_witness :
  Pipe.entry (call_checkpoint_models_to_parameter_pipe Session.D
                Session.second_ckpt (Some Session.user_pipe) Session.h1).2
             Session.user_pipe "vae_name" ≠ Some (VStr "None").
Proof.
  apply (checkpoint_pipe_never_holds_sentinel Session.D Session.second_ckpt
           (Some Session.user_pipe) Session.h1 "vae_name").
  apply (bool_decide_unpack _). vm_compute. exact I.
Defined.

(** X5: a pipe accumulates.  After a checkpoint call and a prompt call
    on the same live pipe, the two from-pipe nodes return all twelve
    values: the eight names under the sentinel rule and the four prompt
    values as given. *)
Theorem pipe_accumulates (D : Pipe.defaults) (p : Pipe.loc)
    (a : checkpoint_args) (b : prompt_args)
    (h : gmap Pipe.loc (gmap string value)) :
  is_Some (h !! p) →
  let h' := (call_prompt_to_parameter_pipe D b (Some p)
               (call_checkpoint_models_to_parameter_pipe D a (Some p) h).2).2 in
  let given := kwarg (VStr "None") in
  (Pipe.parameter_pipe_to_checkpoint_models D (Some p) h').1 =
    {| Pipe.cm_pipe := p;
       Pipe.cm_ckpt_name := Pipe.name_or_none (a_ckpt_name a);
       Pipe.cm_secondary_ckpt_name :=
         Pipe.name_or_none (given (a_secondary_ckpt_name a));
       Pipe.cm_vae_name := Pipe.name_or_none (given (a_vae_name a));
       Pipe.cm_upscaler_name := Pipe.name_or_none (given (a_upscaler_name a));
       Pipe.cm_secondary_upscaler_name :=
         Pipe.name_or_none (given (a_secondary_upscaler_name a));
       Pipe.cm_lora_1_name := Pipe.name_or_none (given (a_lora_1_name a));
       Pipe.cm_lora_2_name := Pipe.name_or_none (given (a_lora_2_name a));
       Pipe.cm_lora_3_name := Pipe.name_or_none (given (a_lora_3_name a)) |} ∧
  (Pipe.parameter_pipe_to_prompt D (Some p) h').1 =
    {| Pipe.pr_pipe := p;
       Pipe.pr_positive := a_positive b;
       Pipe.pr_negative := a_negative b;
       Pipe.pr_image := default VNone (a_image b);
       Pipe.pr_mask := default VNone (a_mask b) |}.
Proof.
  intros Hp h' given. subst h' given.
  unfold Pipe.parameter_pipe_to_checkpoint_models, Pipe.parameter_pipe_to_prompt,
    call_checkpoint_models_to_parameter_pipe, call_prompt_to_parameter_pipe,
    Pipe.checkpoint_models_to_parameter_pipe, Pipe.prompt_to_parameter_pipe.
  cbn [fst snd kwarg default from_option id]. rewrite !get_entry.
  split; pipe_lookup; reflexivity.
Qed.

Lemma pipe_accumulates_witness :
  let h' := (call_prompt_to_parameter_pipe Session.D Session.first_prompt
               (Some Session.user_pipe)
               (call_checkpoint_models_to_parameter_pipe Session.D
                  Session.first_ckpt (Some Session.user_pipe) Session.h1).2).2 in
  Pipe.cm_ckpt_name
    (Pipe.parameter_pipe_to_checkpoint_models Session.D (Some Session.user_pipe) h').1
    = VStr "a.ckpt" ∧
  Pipe.pr_positive
    (Pipe.parameter_pipe_to_prompt Session.D (Some Session.user_pipe) h').1
    = VStr "first".
Proof.
  destruct (pipe_accumulates Session.D Session.user_pipe Session.first_ckpt
              Session.first_prompt Session.h1 session_user_pipe_allocated)
    as [Hc Hp].
  cbv zeta in *. rewrite Hc, Hp. split; reflexivity.
Defined.

(** X6: reading a pipe that has none of the keys (an empty dict, or one
    written by other nodes only) raises nothing: every value read back
    is null. *)
Theorem from_pipe_missing_keys (D : Pipe.defaults) (pipe : Pipe.loc)
    (h : gmap Pipe.loc (gmap string value)) :
  (∀ k, k ∈ Pipe.checkpoint_keys ++ Pipe.prompt_keys → Pipe.entry h pipe k = None) →
  (Pipe.parameter_pipe_to_checkpoint_models D (Some pipe) h).1 =
    {| Pipe.cm_pipe := pipe; Pipe.cm_ckpt_name := VNone;
       Pipe.cm_secondary_ckpt_name := VNone; Pipe.cm_vae_name := VNone;
       Pipe.cm_upscaler_name := VNone; Pipe.cm_secondary_upscaler_name := VNone;
       Pipe.cm_lora_1_name := VNone; Pipe.cm_lora_2_name := VNone;
       Pipe.cm_lora_3_name := VNone |} ∧
  (Pipe.parameter_pipe_to_prompt D (Some pipe) h).1 =
    {| Pipe.pr_pipe := pipe; Pipe.pr_positive := VNone; Pipe.pr_negative := VNone;
       Pipe.pr_image := VNone; Pipe.pr_mask := VNone |}.
Proof.
  intros Hnone.
  unfold Pipe.parameter_pipe_to_checkpoint_models, Pipe.parameter_pipe_to_prompt.
  cbn [fst kwarg default from_option id]. rewrite !get_entry.
  rewrite !Hnone by (apply (bool_decide_unpack _); vm_compute; exact I).
  done.
Qed.

Lemma from_pipe_missing_keys_witness :
  Pipe.cm_ckpt_name
    (Pipe.parameter_pipe_to_checkpoint_models Session.D
       (Some (Pipe.d_prompt_to_parameter_pipe Session.D)) Session.h0).1 = VNone ∧
  Pipe.pr_positive
    (Pipe.parameter_pipe_to_prompt Session.D
       (Some (Pipe.d_prompt_to_parameter_pipe Session.D)) Session.h0).1 = VNone.
Proof.
  destruct (from_pipe_missing_keys Session.D
              (Pipe.d_prompt_to_parameter_pipe Session.D) Session.h0)
    as [Hc Hp].
  - intros k _. vm_compute. reflexivity.
  - rewrite Hc, Hp. split; reflexivity.
Defined.

(** ** The default pipes of the module *)

Lemma import_module_allocates (h : gmap Pipe.loc (gmap string value)) :
  let D := (Pipe.import_module h).1 in
  let h' := (Pipe.import_module h).2 in
  let l1 := Pipe.d_checkpoint_models_to_parameter_pipe D in
  let l2 := Pipe.d_prompt_to_parameter_pipe D in
  let l3 := Pipe.d_parameter_pipe_to_checkpoint_models D in
  let l4 := Pipe.d_parameter_pipe_to_prompt D in
  (l1 ≠ l2 ∧ l1 ≠ l3 ∧ l1 ≠ l4 ∧ l2 ≠ l3 ∧ l2 ≠ l4 ∧ l3 ≠ l4) ∧
  (h !! l1 = None ∧ h !! l2 = None ∧ h !! l3 = None ∧ h !! l4 = None) ∧
  (h' !! l1 = Some ∅ ∧ h' !! l2 = Some ∅ ∧ h' !! l3 = Some ∅ ∧ h' !! l4 = Some ∅) ∧
  (∀ q, q ≠ l1 → q ≠ l2 → q ≠ l3 → q ≠ l4 → h' !! q = h !! q).
Proof.
  unfold Pipe.import_module, Pipe.new_dict. cbn [fst snd].
  set (l1 := fresh (dom h)). set (h1 := <[l1:=∅]> h).
  set (l2 := fresh (dom h1)). set (h2 := <[l2:=∅]> h1).
  set (l3 := fresh (dom h2)). set (h3 := <[l3:=∅]> h2).
  set (l4 := fresh (dom h3)).
  cbn [Pipe.d_checkpoint_models_to_parameter_pipe Pipe.d_prompt_to_parameter_pipe
       Pipe.d_parameter_pipe_to_checkpoint_models Pipe.d_parameter_pipe_to_prompt].
  pose proof (is_fresh (dom h)) as F1. fold l1 in F1.
  pose proof (is_fresh (dom h1)) as F2. fold l2 in F2.
  pose proof (is_fresh (dom h2)) as F3. fold l3 in F3.
  pose proof (is_fresh (dom h3)) as F4. fold l4 in F4.
  unfold h3 in F4. rewrite dom_insert_L in F4.
  unfold h2 in F3, F4. rewrite dom_insert_L in F3, F4.
  unfold h1 in F2, F3, F4. rewrite dom_insert_L in F2, F3, F4.
  assert (l1 ≠ l2 ∧ l1 ≠ l3 ∧ l1 ≠ l4 ∧ l2 ≠ l3 ∧ l2 ≠ l4 ∧ l3 ≠ l4)
    as (N12 & N13 & N14 & N23 & N24 & N34) by set_solver.
  assert (h !! l1 = None ∧ h !! l2 = None ∧ h !! l3 = None ∧ h !! l4 = None)
    as (E1 & E2 & E3 & E4) by (rewrite <-!not_elem_of_dom; set_solver).
  split; [done |]. split; [done |]. unfold h3, h2, h1. split.
  - repeat split.
    + by rewrite !lookup_insert_ne, lookup_insert_eq by done.
    + by rewrite !lookup_insert_ne, lookup_insert_eq by done.
    + by rewrite lookup_insert_ne, lookup_insert_eq by done.
    + by rewrite lookup_insert_eq.
  - intros q H1 H2 H3 H4. by rewrite !lookup_insert_ne by done.
Qed.

(** X7: importing the module creates four dict objects that are new
    (not in the heap before), pairwise different and empty, and leaves
    every other object of the heap as it was. *)
Theorem import_module_fresh (h : gmap Pipe.loc (gmap string value)) :
  let D := (Pipe.import_module h).1 in
  let h' := (Pipe.import_module h).2 in
  let ls := [Pipe.d_checkpoint_models_to_parameter_pipe D;
             Pipe.d_prompt_to_parameter_pipe D;
             Pipe.d_parameter_pipe_to_checkpoint_models D;
             Pipe.d_parameter_pipe_to_prompt D] in
  NoDup ls ∧
  Forall (λ l, h !! l = None ∧ h' !! l = Some ∅) ls ∧
  (∀ q, q ∉ ls → h' !! q = h !! q).
Proof.
  destruct (import_module_allocates h)
    as ((N12 & N13 & N14 & N23 & N24 & N34) & (E1 & E2 & E3 & E4) &
        (A1 & A2 & A3 & A4) & Hframe).
  cbv zeta. split; [|split].
  - repeat (apply NoDup_cons_2; [rewrite ?elem_of_cons, elem_of_nil; intuition congruence |]).
    apply NoDup_nil_2.
  - repeat (apply Forall_cons_2; [done |]). apply Forall_nil_2.
  - intros q Hq. rewrite !elem_of_cons, elem_of_nil in Hq.
    apply Hframe; intros ->; intuition congruence.
Qed.

(** X8: the four functions do not share their default dict.  After the
    import, what the two to-pipe nodes write when called without a pipe
    is invisible to the two from-pipe nodes called without a pipe (they
    read their own, still empty, dicts and return nulls), and the two
    to-pipe nodes do not see each other's entries either. *)
Theorem default_pipes_are_separate (h : gmap Pipe.loc (gmap string value))
    (a : checkpoint_args) (b : prompt_args) :
  let D := (Pipe.import_module h).1 in
  let r1 := call_checkpoint_models_to_parameter_pipe D a None (Pipe.import_module h).2 in
  let r2 := call_prompt_to_parameter_pipe D b None r1.2 in
  r1.1 ≠ r2.1 ∧
  (∀ k, k ∈ Pipe.prompt_keys → Pipe.entry r2.2 r1.1 k = None) ∧
  (∀ k, k ∈ Pipe.checkpoint_keys → Pipe.entry r2.2 r2.1 k = None) ∧
  (Pipe.parameter_pipe_to_checkpoint_models D None r2.2).1 =
    {| Pipe.cm_pipe := Pipe.d_parameter_pipe_to_checkpoint_models D;
       Pipe.cm_ckpt_name := VNone;
       Pipe.cm_secondary_ckpt_name := VNone; Pipe.cm_vae_name := VNone;
       Pipe.cm_upscaler_name := VNone; Pipe.cm_secondary_upscaler_name := VNone;
       Pipe.cm_lora_1_name := VNone; Pipe.cm_lora_2_name := VNone;
       Pipe.cm_lora_3_name := VNone |} ∧
  (Pipe.parameter_pipe_to_prompt D None r2.2).1 =
    {| Pipe.pr_pipe := Pipe.d_parameter_pipe_to_prompt D;
       Pipe.pr_positive := VNone; Pipe.pr_negative := VNone;
       Pipe.pr_image := VNone; Pipe.pr_mask := VNone |}.
Proof.
  destruct (import_module_allocates h)
    as ((N12 & N13 & N14 & N23 & N24 & N34) & _ & (A1 & A2 & A3 & A4) & _).
  cbv zeta in *.
  set (D := (Pipe.import_module h).1) in *.
  set (h0 := (Pipe.import_module h).2) in *.
  unfold call_checkpoint_models_to_parameter_pipe, call_prompt_to_parameter_pipe.
  rewrite prompt_to_parameter_pipe_update, checkpoint_models_to_parameter_pipe_update.
  unfold Pipe.parameter_pipe_to_checkpoint_models, Pipe.parameter_pipe_to_prompt.
  cbn [fst snd kwarg default from_option id
       Pipe.checkpoint_models_to_parameter_pipe Pipe.prompt_to_parameter_pipe].
  unfold Pipe.get, Pipe.entry.
  rewrite !(lookup_alter_ne _ _ _ _ N23), !(lookup_alter_ne _ _ _ _ N13), A3.
  rewrite !(lookup_alter_ne _ _ _ _ N24), !(lookup_alter_ne _ _ _ _ N14), A4.
  split; [done |]. split; [|split; [|done]].
  - intros k Hk. rewrite lookup_alter_ne, lookup_alter_eq, A1 by done. cbn [fmap option_fmap option_map mbind option_bind].
    rewrite (right_id_L ∅ (∪)). apply not_elem_of_list_to_map.
    rewrite checkpoint_entries_keys, elem_of_reverse. intros Hc.
    pose proof to_pipe_keys_distinct as Hnd. apply NoDup_app in Hnd as (_ & Hdis & _).
    by apply (Hdis k).
  - intros k Hk. rewrite lookup_alter_eq, lookup_alter_ne, A2 by done.
    cbn [fmap option_fmap option_map mbind option_bind].
    rewrite (right_id_L ∅ (∪)). apply not_elem_of_list_to_map.
    rewrite prompt_entries_keys, elem_of_reverse. intros Hc.
    pose proof to_pipe_keys_distinct as Hnd. apply NoDup_app in Hnd as (_ & Hdis & _).
    by apply (Hdis k).
Qed.

(** X9: the default pipe carries data from one use to the next.  When a
    checkpoint node ran without a pipe, a prompt node wrote into the
    pipe it returned, and a checkpoint node later runs without a pipe
    again, that call returns the same pipe with the earlier prompt
    entries still in it. *)
Theorem default_pipe_keeps_earlier_entries (D : Pipe.defaults)
    (a a' : checkpoint_args) (b : prompt_args)
    (h : gmap Pipe.loc (gmap string value)) :
  is_Some (h !! Pipe.d_checkpoint_models_to_parameter_pipe D) →
  let r1 := call_checkpoint_models_to_parameter_pipe D a None h in
  let r2 := call_prompt_to_parameter_pipe D b (Some r1.1) r1.2 in
  let r3 := call_checkpoint_models_to_parameter_pipe D a' None r2.2 in
  r3.1 = r1.1 ∧
  (Pipe.parameter_pipe_to_prompt D (Some r3.1) r3.2).1 =
    {| Pipe.pr_pipe := r1.1;
       Pipe.pr_positive := a_positive b;
       Pipe.pr_negative := a_negative b;
       Pipe.pr_image := default VNone (a_image b);
       Pipe.pr_mask := default VNone (a_mask b) |}.
Proof.
  intros Hp r1 r2 r3. subst r1 r2 r3.
  unfold Pipe.parameter_pipe_to_prompt,
    call_checkpoint_models_to_parameter_pipe, call_prompt_to_parameter_pipe,
    Pipe.checkpoint_models_to_parameter_pipe, Pipe.prompt_to_parameter_pipe.
  cbn [fst snd kwarg default from_option id]. rewrite !get_entry.
  split; [done |]. pipe_lookup. reflexivity.
Qed.

Lemma default_pipe_keeps_earlier_entries_witness :
  let r1 := call_checkpoint_models_to_parameter_pipe Session.D Session.first_ckpt
              None Session.h0 in
  let r2 := call_prompt_to_parameter_pipe Session.D Session.first_prompt
              (Some r1.1) r1.2 in
  let r3 := call_checkpoint_models_to_parameter_pipe Session.D Session.second_ckpt
              None r2.2 in
  Pipe.pr_positive (Pipe.parameter_pipe_to_prompt Session.D (Some r3.1) r3.2).1 =
    VStr "first".
Proof.
  destruct (default_pipe_keeps_earlier_entries Session.D Session.first_ckpt
              Session.second_ckpt Session.first_prompt Session.h0
              (proj1 session_defaults_allocated)) as [_ Hr].
  cbv zeta in *. rewrite Hr. reflexivity.
Defined.

(** ** Image Ingest: the image tensor *)

Lemma ndarray_nested_ind {A} (P : ndarray A → Prop) :
  (∀ x, P (Sc x)) → (∀ xs, Forall P xs → P (Nd xs)) → ∀ a, P a.
Proof.
  intros Hsc Hnd. fix IH 1. intros [x|xs]; [apply Hsc |].
  apply Hnd. induction xs as [|a xs IHxs]; constructor; [apply IH | exact IHxs].
Qed.

Lemma nd_samples_Nd {A} (P : A → Prop) (xs : list (ndarray A)) :
  Forall P (nd_samples (Nd xs)) ↔ Forall (λ a, Forall P (nd_samples a)) xs.
Proof. cbn [nd_samples]. by rewrite Forall_concat, Forall_fmap. Qed.

Lemma Forall_map_seq {X} (P : X → Prop) (f : nat → X) (n : nat) :
  (∀ i, (i < n)%nat → P (f i)) → Forall P (map f (seq 0 n)).
Proof.
  intros Hf. apply Forall_fmap, Forall_forall. intros i Hi%elem_of_seq.
  apply Hf. lia.
Qed.

Lemma nd_samples_nd_map {A B} (f : A → B) (a : ndarray A) :
  nd_samples (nd_map f a) = map f (nd_samples a).
Proof.
  induction a as [x|xs IH] using ndarray_nested_ind; [done |].
  cbn [nd_map nd_samples]. rewrite List.map_map, concat_map, List.map_map.
  f_equal. rewrite Forall_forall in IH. apply map_ext_in. intros a Ha.
  apply IH. by apply list_elem_of_In.
Qed.

(** The samples of [np.array(image)] are samples of the image's planes. *)
Lemma np_array_samples (P : N → Prop) (image : pil_image) :
  (∀ name plane y x, (name, plane) ∈ im_bands image → P (Ingest.sample plane y x)) →
  Forall P (nd_samples (Ingest.np_array image)).
Proof.
  intros Hall. unfold Ingest.np_array.
  assert (Forall P (nd_samples
            (Nd (map (λ y, Nd (map (λ x,
                   Nd (map (λ b : string * list (list N), Sc (Ingest.sample b.2 y x))
                           (im_bands image)))
                 (seq 0 (im_width image)))) (seq 0 (im_height image)))))) as Hgen.
  { apply nd_samples_Nd, Forall_map_seq. intros y _.
    apply nd_samples_Nd, Forall_map_seq. intros x _.
    apply nd_samples_Nd, Forall_fmap, Forall_forall. intros [name plane] Hin.
    cbn [nd_samples snd]. apply Forall_singleton. by apply (Hall name). }
  destruct (im_bands image) as [|[name plane] [|b bands]] eqn:Hbands; try exact Hgen.
  apply nd_samples_Nd, Forall_map_seq. intros y _.
  apply nd_samples_Nd, Forall_map_seq. intros x _.
  cbn [nd_samples]. apply Forall_singleton, (Hall name).
  by apply list_elem_of_singleton.
Qed.

Lemma rows_shape {A} (cell : nat → nat → ndarray A) (shape : list nat) (h w : nat) :
  (∀ y x, has_shape shape (cell y x)) →
  has_shape (h :: w :: shape)
    (Nd (map (λ y, Nd (map (λ x, cell y x) (seq 0 w))) (seq 0 h))).
Proof.
  intros Hcell. cbn [has_shape]. rewrite length_map, length_seq. split; [done |].
  apply Forall_map_seq. intros y _. cbn [has_shape].
  rewrite length_map, length_seq. split; [done |].
  apply Forall_map_seq. intros x _. apply Hcell.
Qed.

(** [np.array(image).shape]: no channel axis for a single band. *)
Lemma np_array_shape (image : pil_image) :
  has_shape
    (if decide (length (im_bands image) = 1%nat)
     then [im_height image; im_width image]
     else [im_height image; im_width image; length (im_bands image)])
    (Ingest.np_array image).
Proof.
  unfold Ingest.np_array.
  assert (∀ bands : list (string * list (list N)),
            has_shape [im_height image; im_width image; length bands]
              (Nd (map (λ y, Nd (map (λ x,
                     Nd (map (λ b : string * list (list N), Sc (Ingest.sample b.2 y x))
                             bands))
                   (seq 0 (im_width image)))) (seq 0 (im_height image))))) as Hgen.
  { intros bands. apply rows_shape. intros y x. cbn [has_shape].
    rewrite length_map. split; [done |].
    apply Forall_fmap, Forall_forall. intros c _. exact I. }
  destruct (im_bands image) as [|[name plane] [|b bands]].
  - apply Hgen.
  - apply rows_shape. intros y x. exact I.
  - apply Hgen.
Qed.

Lemma nd_map_shape {A B} (f : A → B) (shape : list nat) (a : ndarray A) :
  has_shape shape a → has_shape shape (nd_map f a).
Proof.
  revert shape. induction a as [x|xs IH] using ndarray_nested_ind; intros [|n shape]; try done.
  cbn [has_shape nd_map]. rewrite length_map. intros [Hlen Hall]. split; [done |].
  apply Forall_fmap. apply Forall_forall. intros a Ha.
  rewrite Forall_forall in IH. rewrite Forall_forall in Hall.
  apply (IH a Ha), Hall, Ha.
Qed.

Lemma below_256 (P : N → bool) :
  forallb (λ a : nat, P (N.of_nat a)) (seq 0 256) = true →
  ∀ a, (a < 256)%N → P a = true.
Proof.
  intros Hall a Ha. rewrite forallb_forall in Hall.
  rewrite <-(N2Nat.id a). apply Hall, in_seq. lia.
Qed.

Lemma normalize_unit_range (a : N) :
  (a < 256)%N → unit_range (Ingest.normalize a).
Proof.
  intros Ha. apply andb_prop.
  apply (below_256 (λ a, F32.leb F32.zero (Ingest.normalize a)
                         && F32.leb (Ingest.normalize a) F32.one)); [|done].
  vm_compute. reflexivity.
Qed.

Lemma inverted_unit_range (a : N) :
  (a < 256)%N → unit_range (F32.sub F32.one (Ingest.normalize a)).
Proof.
  intros Ha. apply andb_prop.
  apply (below_256 (λ a, F32.leb F32.zero (F32.sub F32.one (Ingest.normalize a))
                         && F32.leb (F32.sub F32.one (Ingest.normalize a)) F32.one));
    [|done].
  vm_compute. reflexivity.
Qed.

(** Scaling back by 255 recovers every 8-bit sample exactly. *)
Lemma quantize_normalize_sample (a : N) :
  (a < 256)%N →
  Upload.to_uint8 (Upload.clip_0_255 (F32.mul F32.c255 (Ingest.normalize a))) = a.
Proof.
  intros Ha. apply N.eqb_eq.
  apply (below_256 (λ a, (Upload.to_uint8 (Upload.clip_0_255
                            (F32.mul F32.c255 (Ingest.normalize a))) =? a)%N)); [|done].
  vm_compute. reflexivity.
Qed.

Lemma quantize_normalize (a : ndarray N) :
  Forall (λ v, (v < 256)%N) (nd_samples a) →
  Upload.quantize (nd_map Ingest.normalize a) = a.
Proof.
  unfold Upload.quantize.
  induction a as [x|xs IH] using ndarray_nested_ind.
  - cbn [nd_samples nd_map]. intros Hx%Forall_inv.
    by rewrite quantize_normalize_sample.
  - intros Hall%nd_samples_Nd. cbn [nd_map]. rewrite List.map_map. f_equal.
    rewrite <-(map_id xs) at 2. apply map_ext_in. intros a Ha%list_elem_of_In.
    rewrite Forall_forall in IH. rewrite Forall_forall in Hall.
    apply (IH a Ha), Hall, Ha.
Qed.

Lemma getchannel_plane (name : string) (i ch : pil_image) :
  Ingest.getchannel name i = Some ch →
  ∃ plane, ch = {| im_width := im_width i; im_height := im_height i;
                   im_bands := [("L", plane)] |} ∧
           (name, plane) ∈ im_bands i.
Proof.
  unfold Ingest.getchannel.
  destruct (list_find _ _) as [[j [n plane]]|] eqn:Hfind; [|done].
  apply list_find_Some in Hfind as (Hj & Hn & _).
  cbn [mbind option_bind snd]. intros [= <-]. exists plane. split; [done |].
  cbn in Hn. subst n. by eapply list_elem_of_lookup_2.
Qed.

Lemma zeros_unit_range (shape : list nat) :
  Forall unit_range (nd_samples (zeros shape)).
Proof.
  induction shape as [|n shape IH]; cbn [zeros].
  - apply Forall_singleton. by vm_compute.
  - apply nd_samples_Nd, Forall_replicate, IH.
Qed.

Lemma mask_of_unit_range (i : pil_image) :
  eight_bit i → Forall unit_range (nd_samples (Ingest.mask_of i)).
Proof.
  intros H8. unfold Ingest.mask_of.
  destruct (Ingest.has_band "A" i); [|apply zeros_unit_range].
  destruct (Ingest.getchannel "A" i) as [alpha|] eqn:Hget; [|apply zeros_unit_range].
  apply getchannel_plane in Hget as (plane & -> & Hin).
  rewrite !nd_samples_nd_map, List.map_map. apply Forall_fmap.
  eapply Forall_impl.
  - apply (np_array_samples (λ v, (v < 256)%N)). cbn [im_bands].
    intros name' plane' y x [= _ ->]%list_elem_of_singleton.
    apply (H8 "A" plane y x Hin).
  - intros v Hv. by apply inverted_unit_range.
Qed.

Lemma add_batch_axis_shape {A} (shape : list nat) (a : ndarray A) :
  has_shape shape a → has_shape (1%nat :: shape) (add_batch_axis a).
Proof. intros Ha. split; [done |]. by apply Forall_singleton. Qed.

(** X11: when the image is opened and the steps before the tensors
    succeed, the image tensor has a leading batch axis of length 1, then
    the height and width of the saved image, then one axis for its
    bands; an image of a single band (greyscale kept with
    [keep_alpha_channel]) yields no band axis. *)
Theorem load_image_from_url_image_shape (H : Ingest.host) (s : Ingest.self)
    (url : string) (keep_alpha_channel : option bool) (src i image : pil_image) :
  outcome (Ingest.open_url H url) = Ok src →
  preview_saved H s keep_alpha_channel src i image →
  let bands := length (im_bands image) in
  ∃ out,
    outcome (Ingest.load_image_from_url H s url keep_alpha_channel) = Ok out ∧
    has_shape
      (if decide (bands = 1%nat)
       then [1%nat; im_height image; im_width image]
       else [1%nat; im_height image; im_width image; bands])
      (Ingest.result_image out).
Proof.
  intros Hopen Hsteps bands.
  destruct (load_image_from_url_returns H s url keep_alpha_channel src i image
              Hopen Hsteps) as (out & Hout & Himage & _).
  exists out. split; [done |]. rewrite Himage.
  pose proof (np_array_shape image) as Hshape. fold bands in Hshape.
  destruct (decide (bands = 1%nat)); by apply add_batch_axis_shape, nd_map_shape.
Qed.

Lemma load_image_from_url_image_shape_witness :
  ∃ out,
    outcome (Ingest.load_image_from_url (Session.ingest_host 200)
               (Ingest.init (Session.ingest_host 200)) Session.data_uri None) = Ok out ∧
    has_shape [1%nat; 1%nat; 1%nat; 3%nat] (Ingest.result_image out).
Proof.
  exact (load_image_from_url_image_shape (Session.ingest_host 200)
           (Ingest.init (Session.ingest_host 200)) Session.data_uri None
           Session.opaque_pixel Session.opaque_pixel Session.rgb_pixel eq_refl
           (proj2 (proj2 session_preview_saved))).
Defined.

(** X12: when the image is opened, the steps before the tensors
    succeed and the decoder and the conversion deliver 8-bit planes,
    every sample of the image tensor and of the mask lies between 0
    and 1. *)
Theorem load_image_from_url_unit_range (H : Ingest.host) (s : Ingest.self)
    (url : string) (keep_alpha_channel : option bool) (src i image : pil_image) :
  outcome (Ingest.open_url H url) = Ok src →
  preview_saved H s keep_alpha_channel src i image →
  eight_bit i → eight_bit image →
  ∃ out,
    outcome (Ingest.load_image_from_url H s url keep_alpha_channel) = Ok out ∧
    Forall unit_range (nd_samples (Ingest.result_image out)) ∧
    Forall unit_range (nd_samples (Ingest.result_mask out)).
Proof.
  intros Hopen Hsteps Hi Himg.
  destruct (load_image_from_url_returns H s url keep_alpha_channel src i image
              Hopen Hsteps) as (out & Hout & Himage & Hmask).
  exists out. split; [done |]. rewrite Himage, Hmask. split.
  - unfold add_batch_axis. apply nd_samples_Nd, Forall_singleton.
    rewrite nd_samples_nd_map. apply Forall_fmap.
    eapply Forall_impl; [apply (np_array_samples (λ v, (v < 256)%N)), Himg |].
    intros v Hv. by apply normalize_unit_range.
  - by apply mask_of_unit_range.
Qed.

Lemma eight_bit_intro (i : pil_image) :
  Forall (λ b, Forall (Forall (λ v, (v < 256)%N)) b.2) (im_bands i) → eight_bit i.
Proof.
  intros Hall name plane y x Hin. rewrite Forall_forall in Hall.
  specialize (Hall _ Hin). cbn [snd] in Hall. unfold Ingest.sample.
  destruct (plane !! y) as [row|] eqn:Hrow; cbn [mbind option_bind default]; [|done].
  destruct (row !! x) as [v|] eqn:Hv; cbn [default]; [|done].
  rewrite Forall_forall in Hall. specialize (Hall row (list_elem_of_lookup_2 _ _ _ Hrow)).
  rewrite Forall_forall in Hall. exact (Hall v (list_elem_of_lookup_2 _ _ _ Hv)).
Qed.

Lemma session_pixels_eight_bit :
  eight_bit Session.opaque_pixel ∧ eight_bit Session.rgb_pixel.
Proof. split; apply eight_bit_intro; repeat constructor. Qed.

Lemma load_image_from_url_unit_range_witness :
  ∃ out,
    outcome (Ingest.load_image_from_url (Session.ingest_host 200)
               (Ingest.init (Session.ingest_host 200)) Session.http_url (Some true))
      = Ok out ∧
    Forall unit_range (nd_samples (Ingest.result_image out)) ∧
    Forall unit_range (nd_samples (Ingest.result_mask out)).
Proof.
  exact (load_image_from_url_unit_range (Session.ingest_host 200)
           (Ingest.init (Session.ingest_host 200)) Session.http_url (Some true)
           Session.opaque_pixel Session.opaque_pixel Session.opaque_pixel eq_refl
           (proj1 (proj2 session_preview_saved))
           (proj1 session_pixels_eight_bit) (proj1 session_pixels_eight_bit)).
Defined.

(** X13: loading and uploading compose without loss.  When an 8-bit
    image is opened and the steps before the tensors succeed, the tensor
    returned, scaled back by the upload node, is again the array of the
    samples of the image saved, so the PNG that the upload node encodes
    for it holds exactly the pixels that were loaded. *)
Theorem upload_reencodes_loaded_image (H : Ingest.host) (U : Upload.host)
    (s : Ingest.self) (url : string) (keep_alpha_channel : option bool)
    (src i image : pil_image) (prompt : option Upload.json)
    (extra_pnginfo : option (list (string * Upload.json))) (idx : nat) :
  outcome (Ingest.open_url H url) = Ok src →
  preview_saved H s keep_alpha_channel src i image →
  eight_bit image →
  ∃ out t,
    outcome (Ingest.load_image_from_url H s url keep_alpha_channel) = Ok out ∧
    Ingest.result_image out = Nd [t] ∧
    Upload.quantize t = Ingest.np_array image ∧
    fe_buffer (Upload.file_of U prompt extra_pnginfo idx t) =
      Upload.save_png U (Ingest.np_array image)
        (Upload.png_text U prompt extra_pnginfo) 4.
Proof.
  intros Hopen Hsteps Himg.
  destruct (load_image_from_url_returns H s url keep_alpha_channel src i image
              Hopen Hsteps) as (out & Hout & Himage & _).
  assert (Upload.quantize (nd_map Ingest.normalize (Ingest.np_array image))
            = Ingest.np_array image) as Hback.
  { apply quantize_normalize, np_array_samples, Himg. }
  exists out, (nd_map Ingest.normalize (Ingest.np_array image)).
  split; [done |]. split; [done |]. split; [done |].
  unfold Upload.file_of. cbn [fe_buffer]. by rewrite Hback.
Qed.

Lemma upload_reencodes_loaded_image_witness :
  ∃ out t,
    outcome (Ingest.load_image_from_url (Session.ingest_host 200)
               (Ingest.init (Session.ingest_host 200)) Session.data_uri None) = Ok out ∧
    Ingest.result_image out = Nd [t] ∧
    Upload.quantize t = Nd [Nd [Nd [Sc 10%N; Sc 20%N; Sc 30%N]]].
Proof.
  destruct (upload_reencodes_loaded_image (Session.ingest_host 200)
              Session.upload_host (Ingest.init (Session.ingest_host 200))
              Session.data_uri None Session.opaque_pixel Session.opaque_pixel
              Session.rgb_pixel None None 0 eq_refl
              (proj2 (proj2 session_preview_saved))
              (proj2 session_pixels_eight_bit))
    as (out & t & Hout & Himage & Hback & _).
  exists out, t. split; [exact Hout |]. split; [exact Himage |]. exact Hback.
Defined.

(** ** Image Ingest: data URIs *)

Lemma str_split_no_sep (sep : Ascii.ascii) (s : string) :
  sep ∉ chars s → str_split sep s = [s].
Proof.
  induction s as [|c s IH]; [done |]. cbn [chars list_ascii_of_string str_split].
  intros Hnot%not_elem_of_cons. destruct Hnot as [Hne Hnot].
  destruct (Ascii.eqb_spec c sep) as [->|_]; [done |].
  by rewrite (IH Hnot).
Qed.

Lemma str_split_sep (sep : Ascii.ascii) (s t : string) :
  sep ∉ chars s →
  str_split sep (s +:+ String sep t) = s :: str_split sep t.
Proof.
  induction s as [|c s IH].
  - intros _. change (EmptyString +:+ ?u) with u. cbn [str_split].
    by rewrite Ascii.eqb_refl.
  - cbn [chars list_ascii_of_string].
    intros Hnot%not_elem_of_cons. destruct Hnot as [Hne Hnot].
    change (String c s +:+ ?u) with (String c (s +:+ u)). cbn [str_split].
    destruct (Ascii.eqb_spec c sep) as [->|_]; [done |].
    by rewrite (IH Hnot).
Qed.

Lemma prefix_app (p s t : string) :
  String.prefix p s = true → String.prefix p (s +:+ t) = true.
Proof.
  revert s. induction p as [|c p IH]; intros s.
  { intros _. by destruct (s +:+ t). }
  destruct s as [|d s]; [done |].
  change (String d s +:+ t) with (String d (s +:+ t)). cbn [String.prefix].
  destruct (ascii_dec c d); [apply IH | done].
Qed.

Lemma append_empty_r (s : string) : s +:+ EmptyString = s.
Proof.
  induction s as [|c s IH]; [done |].
  change (String c s +:+ ?u) with (String c (s +:+ u)). by rewrite IH.
Qed.

Lemma list_getitem_second {X} (a b : X) (l : list X) :
  list_getitem (a :: b :: l) 1 = Ok b.
Proof.
  unfold list_getitem. cbn [length]. cbn [Z.ltb Z.compare].
  destruct (Z.leb_spec (Z.of_nat (S (S (length l)))) 1) as [Hle|_]; [lia | done].
Qed.

(** X14: of a data URI only the text between the first comma and the
    next one (or the end) is used: it is base64-decoded and opened as an
    image, whatever the header says after [data:image/] and whatever
    follows a second comma; no request is made. *)
Theorem data_uri_payload (H : Ingest.host) (header payload : string)
    (more : option string) :
  String.prefix "data:image/" header = true →
  ","%char ∉ chars header → ","%char ∉ chars payload →
  let url := header +:+ "," +:+ payload +:+
             match more with Some rest => "," +:+ rest | None => EmptyString end in
  Ingest.open_url H url =
    ([], match Ingest.b64decode H payload with
         | None => Raise BinasciiError
         | Some raw =>
             match Ingest.Image_open H raw with
             | None => Raise UnidentifiedImageError
             | Some i => Ok i
             end
         end).
Proof.
  intros Hpre Hheader Hpayload url. subst url. unfold Ingest.open_url.
  rewrite (prefix_app _ _ _ Hpre).
  change (header +:+ "," +:+ ?t) with (header +:+ String "," t).
  rewrite (str_split_sep _ _ _ Hheader).
  assert (∃ segments, str_split "," (payload +:+
            match more with Some rest => "," +:+ rest | None => EmptyString end)
          = payload :: segments) as [segments ->].
  { destruct more as [rest|].
    - change ("," +:+ rest) with (String "," rest).
      rewrite (str_split_sep _ _ _ Hpayload). eauto.
    - rewrite append_empty_r, (str_split_no_sep _ _ Hpayload). eauto. }
  unfold lift. rewrite list_getitem_second, (eff_bind_ok _ _ [] payload) by done.
  destruct (Ingest.b64decode H payload) as [raw|];
    cbn [from_option app trace outcome fst snd].
  - rewrite (eff_bind_ok _ _ [] raw) by done.
    by destruct (Ingest.Image_open H raw).
  - by rewrite (eff_bind_raise _ _ [] BinasciiError).
Qed.

Lemma data_uri_payload_witness :
  Ingest.open_url (Session.ingest_host 200) Session.data_uri =
    ([], Ok Session.opaque_pixel).
Proof.
  apply (data_uri_payload (Session.ingest_host 200) "data:image/png;base64"
           "iVBORw0KGgo=" None).
  - reflexivity.
  - apply (bool_decide_unpack _). vm_compute. exact I.
  - apply (bool_decide_unpack _). vm_compute. exact I.
Defined.

(** X15: a data URI without a comma makes the node fail with
    [IndexError] before anything is decoded, requested or saved. *)
Theorem data_uri_without_comma (H : Ingest.host) (s : Ingest.self)
    (url : string) (keep_alpha_channel : option bool) :
  String.prefix "data:image/" url = true →
  ","%char ∉ chars url →
  Ingest.load_image_from_url H s url keep_alpha_channel = ([], Raise IndexError).
Proof.
  intros Hpre Hnone. unfold Ingest.load_image_from_url, Ingest.open_url.
  rewrite Hpre, (str_split_no_sep _ _ Hnone). reflexivity.
Qed.

Lemma data_uri_without_comma_witness :
  Ingest.load_image_from_url (Session.ingest_host 200)
    (Ingest.init (Session.ingest_host 200)) "data:image/png;base64" None =
    ([], Raise IndexError).
Proof.
  apply data_uri_without_comma.
  - reflexivity.
  - apply (bool_decide_unpack _). vm_compute. exact I.
Defined.

(** ** Upload Sink: the files of a batch *)

Lemma length_append (s t : string) :
  String.length (s +:+ t) = (String.length s + String.length t)%nat.
Proof.
  induction s as [|c s IH]; [done |].
  change (String c s +:+ t) with (String c (s +:+ t)). cbn [String.length].
  by rewrite IH.
Qed.

Lemma append_inv_tail (s1 s2 t : string) : s1 +:+ t = s2 +:+ t → s1 = s2.
Proof.
  intros Heq. pose proof (f_equal String.length Heq) as Hlen.
  rewrite !length_append in Hlen.
  assert (String.length s1 = String.length s2) as Hl by lia. clear Hlen.
  revert s2 Heq Hl. induction s1 as [|c s1 IH]; intros [|d s2]; try done.
  change (String ?a ?u +:+ t) with (String a (u +:+ t)).
  intros [= -> Heq] [= Hl]. f_equal. by apply IH.
Qed.

Lemma upload_file_name_inj :
  Inj (=) (=) (λ i : nat, "image-" +:+ pretty i +:+ ".png").
Proof.
  intros i j Heq. apply (inj (String.append "image-")) in Heq.
  apply append_inv_tail in Heq. by apply (inj pretty).
Qed.

(** X16: within one batch no two files have the same name, however many
    images there are. *)
Theorem upload_images_distinct_names (H : Upload.host)
    (images : list (ndarray spec_float)) (folder_id : option string)
    (prompt : option Upload.json)
    (extra_pnginfo : option (list (string * Upload.json))) :
  ∃ files data,
    Upload.uploads (Upload.upload_images H images folder_id prompt extra_pnginfo)
      = [(files, data)] ∧
    NoDup (fe_filename <$> files).
Proof.
  unfold Upload.upload_images. eexists _, _. split.
  - unfold Upload.uploads, trace.
    destruct (Upload.upload_to_av H _ _); reflexivity.
  - rewrite upload_images_files_names.
    apply (NoDup_fmap_2 _ (Inj0 := upload_file_name_inj)), NoDup_seq.
Qed.

(** X17: the files follow the images one to one and in order: file
    number i is the PNG, at compression level 4, of image i scaled to
    8 bits, and every file carries the same text chunks: [prompt] first
    when a prompt is given, then one chunk per entry of [extra_pnginfo]
    under the entry's own key, in the entries' order. *)
Theorem upload_images_files_content (H : Upload.host)
    (images : list (ndarray spec_float)) (folder_id : option string)
    (prompt : option Upload.json)
    (extra_pnginfo : option (list (string * Upload.json))) :
  ∃ files data chunks,
    Upload.uploads (Upload.upload_images H images folder_id prompt extra_pnginfo)
      = [(files, data)] ∧
    fe_buffer <$> files =
      (λ image, Upload.save_png H (Upload.quantize image) chunks 4) <$> images ∧
    chunks.*1 = match prompt with Some _ => ["prompt"] | None => [] end ++
                (default [] extra_pnginfo).*1 ∧
    chunks.*2 = match prompt with Some p => [Upload.json_dumps H p] | None => [] end ++
                (Upload.json_dumps H <$> (default [] extra_pnginfo).*2).
Proof.
  unfold Upload.upload_images.
  exists (imap (Upload.file_of H prompt extra_pnginfo) images).
  eexists. exists (Upload.png_text H prompt extra_pnginfo). split; [|split; [|split]].
  - unfold Upload.uploads, trace.
    destruct (Upload.upload_to_av H _ _); reflexivity.
  - rewrite fmap_imap. etrans; [|apply imap_const]. by apply imap_ext.
  - unfold Upload.png_text. rewrite fmap_app. f_equal; [by destruct prompt |].
    destruct extra_pnginfo as [extra|]; [|done]. cbn [default from_option id].
    induction extra as [|x extra IH]; [done |]. cbn [map fmap list_fmap fst].
    f_equal. exact IH.
  - unfold Upload.png_text. rewrite fmap_app. f_equal; [by destruct prompt |].
    destruct extra_pnginfo as [extra|]; [|done]. cbn [default from_option id].
    induction extra as [|x extra IH]; [done |]. cbn [map fmap list_fmap snd].
    f_equal. exact IH.
Qed.

(** ** String to Int *)

Section string_to_int.
Import StringToInt.

Lemma digit_of_bounds (c : Ascii.ascii) (d : N) :
  digit_of c = Some d →
  (d < 10)%N ∧ is_space c = false ∧ Ascii.eqb c "_" = false ∧
  Ascii.eqb c "+" = false ∧ Ascii.eqb c "-" = false ∧ (N_of_ascii c <? 128)%N = true.
Proof.
  destruct c as [[] [] [] [] [] [] [] []]; try discriminate;
    intros [= <-]; repeat split; reflexivity.
Qed.

Lemma digit_of_pretty_N_char (d : N) :
  (d < 10)%N → digit_of (pretty_N_char d) = Some d.
Proof.
  intros Hd.
  assert (d = 0 ∨ d = 1 ∨ d = 2 ∨ d = 3 ∨ d = 4 ∨ d = 5 ∨ d = 6 ∨ d = 7 ∨ d = 8 ∨ d = 9)%N
    as Hcases by lia.
  repeat destruct Hcases as [->|Hcases]; try reflexivity. by subst d.
Qed.

(** The decimal digits of a number, most significant first, written in
    front of [s]. *)
Lemma pretty_N_go_digits (x : N) :
  ∃ ds : list N,
    Forall (λ d, (d < 10)%N) ds ∧
    (∀ s, pretty_N_go x s = foldr (λ d, String (pretty_N_char d)) s ds) ∧
    foldl (λ a d, 10 * a + d)%N 0%N ds = x ∧
    ((0 < x)%N → ds ≠ []).
Proof.
  induction (N.lt_wf_0 x) as [x _ IH].
  destruct (decide (0 < x)%N) as [Hpos|Hzero].
  - destruct (IH (x `div` 10)%N) as (ds & Hds & Hgo & Hval & _).
    { apply N.div_lt; lia. }
    exists (ds ++ [x `mod` 10])%N. split; [|split; [|split]].
    + apply Forall_app. split; [done |]. apply Forall_singleton.
      apply N.mod_lt. lia.
    + intros s. rewrite pretty_N_go_step by done. rewrite Hgo.
      by rewrite foldr_app.
    + rewrite foldl_app. cbn [foldl]. rewrite Hval.
      rewrite (N.div_mod x 10) at 3 by lia. lia.
    + intros _. by destruct ds.
  - assert (x = 0%N) as -> by lia. exists []. split; [done |].
    split; [intros s; apply pretty_N_go_0 |]. split; [done | lia].
Qed.

Lemma scan_digits_digits (ds : list N) (prev : last_read) (acc : N)
    (count : nat) (s : string) :
  Forall (λ d, (d < 10)%N) ds → ds ≠ [] →
  scan_digits prev acc count (foldr (λ d, String (pretty_N_char d)) s ds) =
    scan_digits Digit (foldl (λ a d, 10 * a + d)%N acc ds) (count + length ds) s.
Proof.
  intros Hds. revert prev acc count.
  induction Hds as [|d ds Hd Hds IH]; intros prev acc count Hne; [done |].
  cbn [foldr foldl length scan_digits].
  rewrite (digit_of_pretty_N_char d Hd).
  destruct ds as [|d' ds'].
  - cbn [foldr foldl length]. f_equal. lia.
  - rewrite IH by done. f_equal. cbn [length]. lia.
Qed.

Lemma is_ascii_digits (ds : list N) (s : string) :
  Forall (λ d, (d < 10)%N) ds →
  is_ascii (foldr (λ d, String (pretty_N_char d)) s ds) = is_ascii s.
Proof.
  unfold is_ascii. induction 1 as [|d ds Hd Hds IH]; [done |].
  cbn [foldr list_ascii_of_string forallb]. rewrite IH.
  by destruct (digit_of_bounds _ _ (digit_of_pretty_N_char d Hd))
    as (_ & _ & _ & _ & _ & ->).
Qed.

Lemma length_digits (ds : list N) (s : string) :
  String.length (foldr (λ d, String (pretty_N_char d)) s ds) =
    (length ds + String.length s)%nat.
Proof. induction ds as [|d ds IH]; [done |]. cbn. by rewrite IH. Qed.

(** [int] on a literal that starts with a digit. *)
Lemma int_of_str_unsigned (m : nat) (c : Ascii.ascii) (d : N) (rest : string) :
  digit_of c = Some d →
  is_ascii (String c rest) = true →
  int_of_str m (String c rest) =
    Some match scan_digits Nothing 0 0 (String c rest) with
         | Some (n, count, rest) =>
             if (0 <? m)%nat && (m <? count)%nat then ValueError
             else match skip_spaces rest with
                  | EmptyString => Int (Z.of_N n)
                  | _ => ValueError
                  end
         | None => ValueError
         end.
Proof.
  intros Hd Hascii. unfold int_of_str. rewrite Hascii. cbn [negb skip_spaces].
  destruct (digit_of_bounds c d Hd) as (_ & -> & _).
  destruct c as [[] [] [] [] [] [] [] []]; try discriminate; reflexivity.
Qed.

Lemma int_of_str_negative (m : nat) (c : Ascii.ascii) (d : N) (rest : string) :
  digit_of c = Some d →
  is_ascii (String c rest) = true →
  int_of_str m (String "-" (String c rest)) =
    Some match scan_digits Nothing 0 0 (String c rest) with
         | Some (n, count, rest) =>
             if (0 <? m)%nat && (m <? count)%nat then ValueError
             else match skip_spaces rest with
                  | EmptyString => Int (- Z.of_N n)
                  | _ => ValueError
                  end
         | None => ValueError
         end.
Proof.
  intros Hd Hascii. unfold int_of_str.
  assert (is_ascii (String "-" (String c rest)) = true) as -> by exact Hascii.
  reflexivity.
Qed.

Lemma int_of_str_decimal (m : nat) (x : N) (negative : bool) :
  (0 < x)%N →
  (m = 0 ∨ String.length (pretty x) ≤ m)%nat →
  int_of_str m ((if negative then "-" else EmptyString) +:+ pretty x) =
    Some (Int (if negative then - Z.of_N x else Z.of_N x)).
Proof.
  intros Hpos Hlimit.
  destruct (pretty_N_go_digits x) as (ds & Hds & Hgo & Hval & Hne).
  specialize (Hne Hpos).
  assert (pretty x = foldr (λ d, String (pretty_N_char d)) EmptyString ds) as Hpretty.
  { unfold pretty, pretty_N. rewrite decide_False by lia. apply Hgo. }
  rewrite Hpretty in Hlimit |- *. rewrite length_digits in Hlimit.
  cbn [String.length] in Hlimit. rewrite Nat.add_0_r in Hlimit.
  assert (scan_digits Nothing 0 0 (foldr (λ d, String (pretty_N_char d)) EmptyString ds)
          = Some (x, length ds, EmptyString)) as Hscan.
  { rewrite scan_digits_digits by done. by rewrite Hval. }
  assert ((0 <? m)%nat && (m <? length ds)%nat = false) as Hok.
  { destruct Hlimit as [-> | Hle]; [done |].
    apply andb_false_intro2, Nat.ltb_ge, Hle. }
  pose proof (is_ascii_digits ds EmptyString Hds) as Hascii.
  destruct Hds as [|d ds Hd Hds]; [done |].
  cbn [foldr] in *.
  pose proof (digit_of_pretty_N_char d Hd) as Hdigit.
  destruct negative.
  - change ("-" +:+ ?u) with (String "-" u).
    rewrite (int_of_str_negative m _ d _ Hdigit Hascii), Hscan, Hok. reflexivity.
  - change (EmptyString +:+ ?u) with u.
    rewrite (int_of_str_unsigned m _ d _ Hdigit Hascii), Hscan, Hok. reflexivity.
Qed.

End string_to_int.

(** X19: the decimal rendering of any integer converts back to that
    integer, as long as the number of its digits is within the
    interpreter's limit (or the limit is switched off with 0). *)
Theorem string_to_int_of_decimal (max_str_digits : nat) (z : Z) :
  (max_str_digits = 0 ∨ String.length (pretty (Z.abs_N z)) ≤ max_str_digits)%nat →
  StringToInt.string_to_int max_str_digits (pretty z) = Some (StringToInt.Int z).
Proof.
  intros Hlimit. unfold StringToInt.string_to_int. destruct z as [|p|p].
  - unfold StringToInt.int_of_str. cbn. 
    destruct Hlimit as [-> | Hle]; [done |].
    change (String.length (pretty (Z.abs_N 0))) with 1%nat in Hle.
    destruct max_str_digits as [|[|n]]; [lia | done | done].
  - apply (int_of_str_decimal max_str_digits (Npos p) false); [lia | done].
  - apply (int_of_str_decimal max_str_digits (Npos p) true); [lia | done].
Qed.

Lemma string_to_int_of_decimal_witness :
  StringToInt.string_to_int 4300 "-1024" = Some (StringToInt.Int (-1024)).
Proof.
  apply (string_to_int_of_decimal 4300 (-1024)).
  right. apply (bool_decide_unpack _). vm_compute. exact I.
Defined.

Section string_to_int_blanks.
Import StringToInt.

Lemma is_space_bounds (c : Ascii.ascii) :
  is_space c = true →
  digit_of c = None ∧ Ascii.eqb c "_" = false ∧ (N_of_ascii c <? 128)%N = true.
Proof.
  destruct c as [[] [] [] [] [] [] [] []]; try discriminate; intros _;
    repeat split; reflexivity.
Qed.

Lemma chars_append (s t : string) : chars (s +:+ t) = chars s ++ chars t.
Proof.
  unfold chars. induction s as [|c s IH]; [done |].
  change (String c s +:+ t) with (String c (s +:+ t)).
  cbn [list_ascii_of_string]. by rewrite IH.
Qed.

Lemma is_ascii_append (s t : string) :
  is_ascii (s +:+ t) = is_ascii s && is_ascii t.
Proof.
  unfold is_ascii. fold (chars (s +:+ t)) (chars s) (chars t).
  by rewrite chars_append, forallb_app.
Qed.

Lemma blank_is_ascii (s : string) : blank s → is_ascii s = true.
Proof.
  unfold blank, is_ascii, chars. intros Hs. apply forallb_forall.
  intros c Hc%list_elem_of_In. rewrite Forall_forall in Hs.
  by destruct (is_space_bounds c (Hs c Hc)) as (_ & _ & ->).
Qed.

Lemma skip_spaces_blank (ws s : string) :
  blank ws → skip_spaces (ws +:+ s) = skip_spaces s.
Proof.
  unfold blank, chars. induction ws as [|c ws IH]; [done |].
  cbn [list_ascii_of_string]. intros [Hc Hws]%Forall_cons.
  change (String c ws +:+ s) with (String c (ws +:+ s)). cbn [skip_spaces].
  rewrite Hc. by apply IH.
Qed.

Lemma skip_spaces_append_blank (s ws : string) :
  blank ws →
  skip_spaces (s +:+ ws) =
    match skip_spaces s with
    | EmptyString => EmptyString
    | String c r => String c (r +:+ ws)
    end.
Proof.
  intros Hws. induction s as [|c s IH].
  - change (EmptyString +:+ ws) with ws. cbn [skip_spaces].
    rewrite <-(append_empty_r ws) at 1. by rewrite skip_spaces_blank.
  - change (String c s +:+ ws) with (String c (s +:+ ws)). cbn [skip_spaces].
    by destruct (is_space c).
Qed.

Lemma scan_digits_append_blank (ws : string) (prev : last_read) (acc : N)
    (count : nat) (s : string) :
  blank ws →
  scan_digits prev acc count (s +:+ ws) =
    (λ r, (r.1, r.2 +:+ ws)) <$> scan_digits prev acc count s.
Proof.
  intros Hws. revert prev acc count. induction s as [|c s IH]; intros prev acc count.
  - change (EmptyString +:+ ws) with ws. cbn [scan_digits].
    destruct ws as [|w ws]; [by destruct prev |].
    apply Forall_cons in Hws as [Hw _].
    destruct (is_space_bounds w Hw) as (Hd & Hu & _).
    cbn [scan_digits]. rewrite Hd, Hu. by destruct prev.
  - change (String c s +:+ ws) with (String c (s +:+ ws)). cbn [scan_digits].
    destruct (digit_of c) as [d|]; [apply IH |].
    destruct (Ascii.eqb c "_"); destruct prev; try done; apply IH.
Qed.

Lemma finish_append_blank (final : N → parsed) (m : nat) (s ws : string) :
  blank ws →
  match scan_digits Nothing 0 0 (s +:+ ws) with
  | Some (n, count, rest) =>
      if (0 <? m)%nat && (m <? count)%nat then ValueError
      else match skip_spaces rest with
           | EmptyString => final n
           | _ => ValueError
           end
  | None => ValueError
  end =
  match scan_digits Nothing 0 0 s with
  | Some (n, count, rest) =>
      if (0 <? m)%nat && (m <? count)%nat then ValueError
      else match skip_spaces rest with
           | EmptyString => final n
           | _ => ValueError
           end
  | None => ValueError
  end.
Proof.
  intros Hws. rewrite (scan_digits_append_blank ws) by done.
  destruct (scan_digits Nothing 0 0 s) as [[[n count] rest]|]; [|done].
  cbn [fmap option_fmap option_map fst snd].
  destruct (_ && _); [done |].
  rewrite (skip_spaces_append_blank rest ws) by done.
  by destruct (skip_spaces rest).
Qed.

Lemma int_of_str_append_blank (m : nat) (text ws : string) :
  blank ws → int_of_str m (text +:+ ws) = int_of_str m text.
Proof.
  intros Hws. unfold int_of_str.
  rewrite is_ascii_append, (blank_is_ascii ws Hws), andb_true_r.
  destruct (is_ascii text); [|done]. cbn [negb].
  rewrite (skip_spaces_append_blank text ws Hws).
  destruct (skip_spaces text) as [|c r]; [done |].
  destruct c as [[] [] [] [] [] [] [] []]; cbv beta iota zeta; f_equal;
    try change (String ?a (r +:+ ws)) with (String a r +:+ ws);
    first [ apply (finish_append_blank (λ n, Int (Z.of_N n)) m _ ws Hws)
          | apply (finish_append_blank (λ n, Int (- Z.of_N n)) m _ ws Hws) ].
Qed.

Lemma int_of_str_blank_append (m : nat) (ws text : string) :
  blank ws → int_of_str m (ws +:+ text) = int_of_str m text.
Proof.
  intros Hws. unfold int_of_str.
  rewrite is_ascii_append, (blank_is_ascii ws Hws), andb_true_l.
  by rewrite (skip_spaces_blank ws text Hws).
Qed.

End string_to_int_blanks.

(** X20: for ASCII text, white space around the literal does not
    matter: the node gives the same result, a number or [ValueError],
    with and without it. *)
Theorem string_to_int_ignores_blanks (max_str_digits : nat)
    (before text after : string) :
  blank before → blank after → StringToInt.is_ascii text = true →
  ∃ r, StringToInt.string_to_int max_str_digits text = Some r ∧
       StringToInt.string_to_int max_str_digits (before +:+ text +:+ after) = Some r.
Proof.
  intros Hbefore Hafter Hascii. unfold StringToInt.string_to_int.
  rewrite int_of_str_blank_append, int_of_str_append_blank by done.
  unfold StringToInt.int_of_str. rewrite Hascii. cbn [negb].
  destruct (match StringToInt.skip_spaces text with
            | String "+" s' => (false, s')
            | String "-" s' => (true, s')
            | _ => (false, StringToInt.skip_spaces text)
            end) as [negative digits]. eauto.
Qed.

Lemma string_to_int_ignores_blanks_witness :
  ∃ r, StringToInt.string_to_int 4300 "42" = Some r ∧
       StringToInt.string_to_int 4300 "  42 " = Some r.
Proof.
  apply (string_to_int_ignores_blanks 4300 "  " "42" " ");
    [repeat constructor | repeat constructor | reflexivity].
Defined.

(** X21: text without a literal, the empty string or white space only,
    is refused with [ValueError]. *)
Theorem string_to_int_blank (max_str_digits : nat) (text : string) :
  blank text →
  StringToInt.string_to_int max_str_digits text = Some StringToInt.ValueError.
Proof.
  intros Hblank. unfold StringToInt.string_to_int.
  rewrite <-(append_empty_r text), int_of_str_blank_append by done.
  reflexivity.
Qed.

Lemma string_to_int_blank_witness :
  StringToInt.string_to_int 4300 EmptyString = Some StringToInt.ValueError.
Proof. apply string_to_int_blank. constructor. Defined.

Section string_to_int_chars.
Import StringToInt.

Lemma blank_literal (ws : string) : blank ws → Forall literal_char (chars ws).
Proof.
  intros Hws. eapply Forall_impl; [exact Hws |]. intros c Hc. by left.
Qed.

Lemma skip_spaces_split (s : string) :
  ∃ ws, s = ws +:+ skip_spaces s ∧ blank ws.
Proof.
  induction s as [|c s (ws & Hs & Hws)].
  { exists EmptyString. split; [reflexivity | constructor]. }
  cbn [skip_spaces]. destruct (is_space c) eqn:Hc.
  - exists (String c ws). split.
    + change (String c ws +:+ ?u) with (String c (ws +:+ u)). by rewrite <-Hs.
    + by constructor.
  - exists EmptyString. split; [reflexivity | constructor].
Qed.

Lemma scan_digits_chars (prev : last_read) (acc : N) (count : nat) (s : string)
    (n : N) (count' : nat) (rest : string) :
  scan_digits prev acc count s = Some (n, count', rest) →
  ∃ pre, s = pre +:+ rest ∧ Forall literal_char (chars pre).
Proof.
  revert prev acc count. induction s as [|c s IH]; intros prev acc count.
  - cbn [scan_digits]. destruct prev; intros [= <- <- <-].
    exists EmptyString. split; [reflexivity | constructor].
  - cbn [scan_digits]. destruct (digit_of c) as [d|] eqn:Hd.
    + intros (pre & -> & Hpre)%IH. exists (String c pre). split; [done |].
      constructor; [|done]. right. left. by rewrite Hd.
    + destruct (Ascii.eqb_spec c "_") as [->|_]; destruct prev; try done.
      * intros (pre & -> & Hpre)%IH. exists (String "_" pre). split; [done |].
        constructor; [|done]. by repeat right.
      * intros [= <- <- <-]. exists EmptyString. split; [reflexivity | constructor].
Qed.

Lemma finish_chars (final : N → parsed) (m : nat) (s : string) (z : Z) :
  match scan_digits Nothing 0 0 s with
  | Some (n, count, rest) =>
      if (0 <? m)%nat && (m <? count)%nat then ValueError
      else match skip_spaces rest with
           | EmptyString => final n
           | _ => ValueError
           end
  | None => ValueError
  end = Int z →
  Forall literal_char (chars s).
Proof.
  destruct (scan_digits Nothing 0 0 s) as [[[n count] rest]|] eqn:Hscan; [|done].
  destruct (_ && _); [done |].
  destruct (skip_spaces_split rest) as (ws & Hrest & Hws).
  destruct (skip_spaces rest); [|done]. intros _.
  apply scan_digits_chars in Hscan as (pre & -> & Hpre).
  rewrite chars_append. apply Forall_app. split; [done |].
  rewrite Hrest, append_empty_r. by apply blank_literal.
Qed.

Lemma int_of_str_chars (m : nat) (text : string) (z : Z) :
  int_of_str m text = Some (Int z) → Forall literal_char (chars text).
Proof.
  unfold int_of_str. destruct (is_ascii text); [|done]. cbn [negb].
  destruct (skip_spaces_split text) as (ws & Htext & Hws).
  rewrite Htext at 2. rewrite chars_append. intros Hrun.
  apply Forall_app. split; [by apply blank_literal |].
  destruct (skip_spaces text) as [|c r]; [done |].
  destruct c as [[] [] [] [] [] [] [] []]; cbv beta iota zeta in Hrun;
    apply (inj Some) in Hrun;
    first [ apply (finish_chars (λ n, Int (Z.of_N n))) in Hrun
          | apply (finish_chars (λ n, Int (- Z.of_N n))) in Hrun ];
    first [ exact Hrun
          | constructor; [by (right; right; left) | exact Hrun]
          | constructor; [by (right; right; right; left) | exact Hrun] ].
Qed.

End string_to_int_chars.

(** X22: the node never converts text that holds anything besides
    white space, decimal digits, a sign and underscores: a decimal
    point, an exponent, a base prefix or any other letter makes it
    fail. *)
Theorem string_to_int_literal_chars (max_str_digits : nat) (text : string) (z : Z) :
  StringToInt.string_to_int max_str_digits text = Some (StringToInt.Int z) →
  Forall literal_char (chars text).
Proof. apply int_of_str_chars. Qed.

Lemma string_to_int_literal_chars_witness :
  Forall literal_char (chars "+1_000").
Proof.
  apply (string_to_int_literal_chars 4300 "+1_000" 1000). reflexivity.
Defined.

(** ** Image Ingest: the mask and [keep_alpha_channel] *)

(** X23: the flag [keep_alpha_channel] does not change the mask.  When
    the image is opened and the steps before the tensors succeed with
    the flag either way, the two runs return the same mask: it is taken
    from the transposed image, before that is flattened to RGB. *)
Theorem load_image_from_url_mask_ignores_flag (H : Ingest.host) (s : Ingest.self)
    (url : string) (keep keep' : option bool) (src i image image' : pil_image) :
  outcome (Ingest.open_url H url) = Ok src →
  preview_saved H s keep src i image →
  preview_saved H s keep' src i image' →
  ∃ out out',
    outcome (Ingest.load_image_from_url H s url keep) = Ok out ∧
    outcome (Ingest.load_image_from_url H s url keep') = Ok out' ∧
    Ingest.result_mask out = Ingest.result_mask out'.
Proof.
  intros Hopen Hsteps Hsteps'.
  destruct (load_image_from_url_returns H s url keep src i image Hopen Hsteps)
    as (out & Hout & _ & Hmask).
  destruct (load_image_from_url_returns H s url keep' src i image' Hopen Hsteps')
    as (out' & Hout' & _ & Hmask').
  exists out, out'. split; [done |]. split; [done |]. by rewrite Hmask, Hmask'.
Qed.

Lemma load_image_from_url_mask_ignores_flag_witness :
  ∃ out out',
    outcome (Ingest.load_image_from_url (Session.ingest_host 200)
               (Ingest.init (Session.ingest_host 200)) Session.data_uri (Some true))
      = Ok out ∧
    outcome (Ingest.load_image_from_url (Session.ingest_host 200)
               (Ingest.init (Session.ingest_host 200)) Session.data_uri None)
      = Ok out' ∧
    Ingest.result_mask out = Ingest.result_mask out'.
Proof.
  exact (load_image_from_url_mask_ignores_flag (Session.ingest_host 200)
           (Ingest.init (Session.ingest_host 200)) Session.data_uri (Some true) None
           Session.opaque_pixel Session.opaque_pixel Session.opaque_pixel
           Session.rgb_pixel eq_refl
           (proj1 (proj2 session_preview_saved))
           (proj2 (proj2 session_preview_saved))).
Defined.
